(** * pdftohtml: the conversion orchestrator of [src/App.tsx]

    A shallow embedding of the state held by the [App] component and of
    its four handlers ([handleFilesAdded], [handleRemoveFile],
    [handleClearAll], [handleConvert]), followed by the properties of
    the specification that concern them.

    The two collaborators of the orchestrator, [extractPdfText] (from the
    [usePdfExtractor] hook) and [convertTextToHtml] (the generative
    service), are not part of the component: they are parameters of the
    development.  Each is a function of its argument and of the state of
    the outside world, so that two calls with the same argument may
    settle differently.  An extraction hands back a promise together
    with the time at which it settles, which is what [Promise.all]
    goes by; a promise may be rejected with any value, [null] and
    [undefined] included. *)

From stdpp Require Import base list gmap strings pretty.

Open Scope string_scope.
Open Scope list_scope.

(** * The component *)

Module App.

(** ** Data model *)

(** The part of a browser [File] the component reads: its [name] (the
    identity key), its size and a handle on its content. *)
Record File := mkFile {
  name : string;
  byteSize : N;
  content : nat
}.

(** [type Result = { fileName: string; htmlContent: string }] *)
Record Result := mkResult {
  fileName : string;
  htmlContent : string
}.

(** A thrown value whose properties can be read, as far as the [catch]
    clause looks at it: its [message] property, which is [undefined] or
    a string. *)
Record JsError := mkError {
  message : option string
}.

(** What a [throw] throws and what a promise is rejected with: any
    value.  It is [null] or [undefined], whose properties cannot be
    read, or a value whose [message] can be. *)
Inductive Thrown : Type :=
  | Nullish
  | Value (e : JsError).

(** The six [useState] cells of the component. *)
Record AppState := mkApp {
  pdfFiles : list File;
  isConverting : bool;
  results : list Result;
  error : string;
  combineOutput : bool;
  conversionStatus : string
}.

(** [useState] initial values. *)
Definition initialState : AppState :=
  mkApp [] false [] "" true "".

(** The setters returned by [useState]. *)
Definition setPdfFiles (v : list File) (s : AppState) : AppState :=
  mkApp v (isConverting s) (results s) (error s) (combineOutput s)
        (conversionStatus s).

Definition setIsConverting (v : bool) (s : AppState) : AppState :=
  mkApp (pdfFiles s) v (results s) (error s) (combineOutput s)
        (conversionStatus s).

Definition setResults (v : list Result) (s : AppState) : AppState :=
  mkApp (pdfFiles s) (isConverting s) v (error s) (combineOutput s)
        (conversionStatus s).

Definition setError (v : string) (s : AppState) : AppState :=
  mkApp (pdfFiles s) (isConverting s) (results s) v (combineOutput s)
        (conversionStatus s).

Definition setCombineOutput (v : bool) (s : AppState) : AppState :=
  mkApp (pdfFiles s) (isConverting s) (results s) (error s) v
        (conversionStatus s).

Definition setConversionStatus (v : string) (s : AppState) : AppState :=
  mkApp (pdfFiles s) (isConverting s) (results s) (error s)
        (combineOutput s) v.

(** ** File set manager *)

(** [handleFilesAdded]: the names already present are collected in a
    [Set]; the candidates whose name is in it are filtered out and the
    others appended.  Results and error are then cleared. *)
Definition handleFilesAdded (newFiles : list File) (s : AppState) : AppState :=
  let prevFiles := pdfFiles s in
  let existingFileNames : gset string := list_to_set (name <$> prevFiles) in
  let uniqueNewFiles :=
    filter (λ f, name f ∉ existingFileNames) newFiles in
  setError "" (setResults [] (setPdfFiles (prevFiles ++ uniqueNewFiles) s)).

(** [handleRemoveFile]: keeps the files whose name differs. *)
Definition handleRemoveFile (fileName : string) (s : AppState) : AppState :=
  setPdfFiles (filter (λ f, name f ≠ fileName) (pdfFiles s)) s.

(** [handleClearAll] *)
Definition handleClearAll (s : AppState) : AppState :=
  setError "" (setResults [] (setPdfFiles [] s)).

(** ** Asynchronous computations *)

(** How a promise settles. *)
Inductive Settled (A : Type) : Type :=
  | Fulfilled (a : A)
  | Rejected (e : Thrown).
Arguments Fulfilled {A} a.
Arguments Rejected {A} e.

(** A promise that is not awaited at once: how it settles, and when,
    on the clock of the run.  Of two promises, the one with the smaller
    time settles first. *)
Record Promise (A : Type) : Type := mkPromise {
  settled : Settled A;
  settledAt : nat
}.
Arguments mkPromise {A} settled settledAt.
Arguments settled {A} p.
Arguments settledAt {A} p.

(** One call of a collaborator, with the promise it returned (for the
    transformation, which is awaited at once, the way it settled). *)
Inductive IOCall : Type :=
  | ExtractCall (f : File) (p : Promise (option string))
  | ConvertCall (text : string) (r : Settled string).

(** A call together with the component state that was observable when
    it was issued: every call is a suspension point of [handleConvert],
    and the state seen there is the one the setters had produced so
    far. *)
Record Observation := mkObs {
  seen : AppState;
  call : IOCall
}.

(** The outcome of running a computation: how it completed, the
    component state and the world it leaves, and the calls it made, in
    the order it made them. *)
Record Run (World A : Type) := mkRun {
  outcome : Settled A;
  state : AppState;
  world : World;
  log : list Observation
}.
Arguments mkRun {World A} outcome state world log.
Arguments outcome {World A} r.
Arguments state {World A} r.
Arguments world {World A} r.
Arguments log {World A} r.

Definition Async (World A : Type) : Type := AppState → World → Run World A.

Section Async.
Context {World : Type}.

Definition ret {A} (a : A) : Async World A :=
  λ s w, mkRun (Fulfilled a) s w [].

(** [throw e] *)
Definition throw {A} (e : Thrown) : Async World A :=
  λ s w, mkRun (Rejected e) s w [].

Definition bind {A B} (m : Async World A) (k : A → Async World B)
  : Async World B :=
  λ s w,
    let r1 := m s w in
    match outcome r1 with
    | Rejected e => mkRun (Rejected e) (state r1) (world r1) (log r1)
    | Fulfilled a =>
        let r2 := k a (state r1) (world r1) in
        mkRun (outcome r2) (state r2) (world r2) (log r1 ++ log r2)
    end.

(** Reading the state cells (the values closed over at render time). *)
Definition getState : Async World AppState :=
  λ s w, mkRun (Fulfilled s) s w [].

(** Calling a setter. *)
Definition update (f : AppState → AppState) : Async World unit :=
  λ s w, mkRun (Fulfilled tt) (f s) w [].

(** [await p] on a promise that settles as [p]. *)
Definition await {A} (p : Settled A) : Async World A :=
  λ s w, mkRun p s w [].

(** [try { body } catch (e) { handler e } finally { fin }]: the
    handler runs when the body throws, [fin] runs in every case, and
    the statement completes as the body (or the handler) did unless
    [fin] itself throws. *)
Definition tryCatchFinally {A} (body : Async World A)
    (handler : Thrown → Async World A) (fin : Async World unit)
  : Async World A :=
  λ s w,
    let r1 := body s w in
    let r2 :=
      match outcome r1 with
      | Fulfilled a => mkRun (Fulfilled a) (state r1) (world r1) []
      | Rejected e => handler e (state r1) (world r1)
      end in
    let r3 := fin (state r2) (world r2) in
    mkRun (match outcome r3 with
           | Fulfilled _ => outcome r2
           | Rejected e => Rejected e
           end)
          (state r3) (world r3) (log r1 ++ log r2 ++ log r3).
End Async.

Declare Scope async_scope.
Notation "x ← m ; k" := (bind m (λ x, k))
  (at level 20, m at level 100, k at level 200, only parsing) : async_scope.
Notation "m ;; k" := (bind m (λ _, k))
  (at level 100, k at level 200, right associativity, only parsing)
  : async_scope.
Delimit Scope async_scope with async.
Bind Scope async_scope with Async.

(** ** Conversion orchestrator *)

(** [`Extracting text from ${n} files...`] *)
Definition extractingStatus (n : nat) : string :=
  "Extracting text from " +:+ pretty n +:+ " files...".

(** [`Converting ${name} (${i + 1}/${n})...`] *)
Definition convertingStatus (fname : string) (i n : nat) : string :=
  "Converting " +:+ fname +:+ " (" +:+ pretty (i + 1) +:+ "/" +:+ pretty n
  +:+ ")...".

(** The line feed character. *)
Definition newline : string := String (Ascii.ascii_of_nat 10) EmptyString.

(** ['\n\n<hr />\n\n'] *)
Definition separator : string :=
  newline +:+ newline +:+ "<hr />" +:+ newline +:+ newline.

(** [texts.join(sep)] *)
Definition join (sep : string) (texts : list string) : string :=
  String.concat sep texts.

(** [allTexts.filter(text => text !== null)] *)
Definition nonNull (allTexts : list (option string)) : list string :=
  omap id allTexts.

(** [if (text)]: [null] and the empty string are falsy. *)
Definition truthy (text : option string) : option string :=
  match text with
  | Some t => if decide (t = "") then None else Some t
  | None => None
  end.

(** [e.message || fallback], for a value [e] whose message can be read:
    an [undefined] or empty message is falsy. *)
Definition messageOr (e : JsError) (fallback : string) : string :=
  match message e with
  | Some m => if decide (m = "") then fallback else m
  | None => fallback
  end.

(** The [TypeError] the engine throws when a property of [null] or
    [undefined] is read (the text of its message is the engine's). *)
Definition typeError : Thrown :=
  Value (mkError (Some "Cannot read properties of null (reading 'message')")).

Definition noFilesError : string :=
  "Please select one or more PDF files first.".
Definition noTextError : string :=
  "Could not extract text from any of the provided files.".
Definition unknownError : string :=
  "An unknown error occurred during conversion.".
Definition combinedLabel : string := "Combined Output".

(** The rejection that settles first among the promises, with its
    time (of two that settle at the same time, the one submitted
    first). *)
Fixpoint earliestRejection {A} (ps : list (Promise A))
  : option (nat * Thrown) :=
  match ps with
  | [] => None
  | p :: ps' =>
      match settled p with
      | Fulfilled _ => earliestRejection ps'
      | Rejected e =>
          match earliestRejection ps' with
          | Some (t', e') =>
              if decide (settledAt p ≤ t')%nat then Some (settledAt p, e)
              else Some (t', e')
          | None => Some (settledAt p, e)
          end
      end
  end.

(** The values of the fulfilled promises, in the order of the
    promises. *)
Definition fulfilledValues {A} (ps : list (Promise A)) : list A :=
  omap (λ p, match settled p with
             | Fulfilled a => Some a
             | Rejected _ => None
             end) ps.

(** [Promise.all]: rejected as soon as one of the promises is, with the
    reason of that first rejection; fulfilled with the values in the
    order of the promises when all are fulfilled. *)
Definition promiseAll {A} (ps : list (Promise A)) : Settled (list A) :=
  match earliestRejection ps with
  | Some (_, e) => Rejected e
  | None => Fulfilled (fulfilledValues ps)
  end.

Section Orchestrator.
Context {World : Type}.
Variable extractPdfText : File → World → Promise (option string) * World.
Variable convertTextToHtml : string → World → Settled string * World.

Local Open Scope async_scope.

(** [extractPdfText(file)]: the call is issued and the promise it
    returns is the value. *)
Definition callExtract (file : File)
  : Async World (Promise (option string)) :=
  λ s w,
    let '(p, w') := extractPdfText file w in
    mkRun (Fulfilled p) s w' [mkObs s (ExtractCall file p)].

(** [convertTextToHtml(text)] *)
Definition callConvert (text : string) : Async World (Settled string) :=
  λ s w,
    let '(p, w') := convertTextToHtml text w in
    mkRun (Fulfilled p) s w' [mkObs s (ConvertCall text p)].

(** [files.map(file => extractPdfText(file))]: every call is issued,
    whatever the earlier ones do. *)
Fixpoint mapExtract (files : list File)
  : Async World (list (Promise (option string))) :=
  match files with
  | [] => ret []
  | file :: rest =>
      p ← callExtract file;
      ps ← mapExtract rest;
      ret (p :: ps)
  end.

(** The [if (combineOutput)] branch. *)
Definition convertCombined (files : list File) : Async World unit :=
  update (setConversionStatus (extractingStatus (length files)));;
  ps ← mapExtract files;
  allTexts ← await (promiseAll ps);
  let validTexts := nonNull allTexts in
  if decide (length validTexts = 0)
  then throw (Value (mkError (Some noTextError)))
  else
    let combinedText := join separator validTexts in
    update (setConversionStatus "AI is converting combined text...");;
    p ← callConvert combinedText;
    generatedHtml ← await p;
    update (setResults [mkResult combinedLabel generatedHtml]).

(** The [for] loop of the [else] branch, from index [i] on: [files]
    is what is left of the [n] files, [individualResults] the local
    array filled so far. *)
Fixpoint convertEach (n i : nat) (files : list File)
    (individualResults : list Result) : Async World (list Result) :=
  match files with
  | [] => ret individualResults
  | file :: rest =>
      update (setConversionStatus (convertingStatus (name file) i n));;
      p ← callExtract file;
      text ← await (settled p);
      individualResults' ←
        match truthy text with
        | Some t =>
            q ← callConvert t;
            generatedHtml ← await q;
            ret (individualResults ++ [mkResult (name file) generatedHtml])
        | None =>
            (* console.error, no state change *)
            ret individualResults
        end;
      convertEach n (S i) rest individualResults'
  end.

(** The [else] branch. *)
Definition convertIndividually (files : list File) : Async World unit :=
  individualResults ← convertEach (length files) 0 files [];
  update (setResults individualResults).

(** [handleConvert].  In the [catch] clause, [e.message] is read on
    the value caught: on [null] or [undefined] that read throws, and
    [setError] is not reached. *)
Definition handleConvert : Async World unit :=
  s ← getState;
  if decide (length (pdfFiles s) = 0)
  then update (setError noFilesError)
  else
    update (setIsConverting true);;
    update (setError "");;
    update (setResults []);;
    tryCatchFinally
      (if combineOutput s
       then convertCombined (pdfFiles s)
       else convertIndividually (pdfFiles s))
      (λ e,
         (* console.error(e) *)
         match e with
         | Nullish => throw typeError
         | Value v => update (setError (messageOr v unknownError))
         end)
      (update (setIsConverting false);;
       update (setConversionStatus "")).
End Orchestrator.

(** ** What the component renders *)

(** [const isLoading = isConverting || isExtracting], where
    [isExtracting] is the loading flag of the [usePdfExtractor] hook. *)
Definition isLoading (isExtracting : bool) (s : AppState) : bool :=
  isConverting s || isExtracting.

(** The block with the file list, the toggle and the convert button is
    rendered under [pdfFiles.length > 0 && (...)]. *)
Definition showsFileList (s : AppState) : bool :=
  bool_decide (0 < length (pdfFiles s)).

(** The convert button: [disabled={isLoading || pdfFiles.length === 0}]. *)
Definition convertDisabled (isExtracting : bool) (s : AppState) : bool :=
  isLoading isExtracting s || bool_decide (length (pdfFiles s) = 0).

(** The text of the convert button: while loading, the status or, when
    the status is empty, a default text; otherwise the number of files. *)
Definition convertLabel (isExtracting : bool) (s : AppState) : string :=
  if isLoading isExtracting s
  then
    if decide (conversionStatus s = EmptyString)
    then (if isExtracting then "Extracting Text..." else "Converting...")
    else conversionStatus s
  else "Convert " +:+ pretty (length (pdfFiles s)) +:+ " File(s)".

(** The error banner: [error && (...)]. *)
Definition showsError (s : AppState) : bool :=
  bool_decide (error s ≠ EmptyString).

(** The result panel: [results.length > 0 && !isLoading && (...)]. *)
Definition showsResults (isExtracting : bool) (s : AppState) : bool :=
  bool_decide (0 < length (results s)) && negb (isLoading isExtracting s).

End App.

Import App.

(** * Specification vocabulary *)

(** ** Reading a run *)

(** The calls of a run, in the order they were issued. *)
Definition calls {World A} (r : Run World A) : list IOCall :=
  call <$> log r.

(** The way a call failed, when it did. *)
Definition rejection (c : IOCall) : option Thrown :=
  match c with
  | ExtractCall _ p =>
      match settled p with
      | Rejected e => Some e
      | Fulfilled _ => None
      end
  | ConvertCall _ (Rejected e) => Some e
  | ConvertCall _ (Fulfilled _) => None
  end.



(** The first failure among the calls of a run, in the order of the
    calls. *)
Definition firstRejection (cs : list IOCall) : option Thrown :=
  head (omap rejection cs).

(** The failure a run catches, read off its calls: the rejection of
    the transformation, or the rejection of an extraction that no other
    rejected extraction of the run precedes in time. *)
Definition caught (cs : list IOCall) (e : Thrown) : Prop :=
  (∃ t, ConvertCall t (Rejected e) ∈ cs) ∨
  (∃ f p, ExtractCall f p ∈ cs ∧ settled p = Rejected e ∧
     ∀ g q e', ExtractCall g q ∈ cs → settled q = Rejected e' →
               (settledAt p ≤ settledAt q)%nat).

(** What the loop of the individual mode did with one file: skipped it
    because its extraction resolved (at [time]) to a [text] that is
    null or empty, or converted its text [t] to [html]. *)
Inductive Step : Type :=
  | Skipped (f : File) (text : option string) (time : nat)
  | Converted (f : File) (t html : string) (time : nat).

Definition stepFile (st : Step) : File :=
  match st with
  | Skipped f _ _ => f
  | Converted f _ _ _ => f
  end.

Definition stepCalls (st : Step) : list IOCall :=
  match st with
  | Skipped f text time => [ExtractCall f (mkPromise (Fulfilled text) time)]
  | Converted f t html time =>
      [ExtractCall f (mkPromise (Fulfilled (Some t)) time);
       ConvertCall t (Fulfilled html)]
  end.

Definition stepResult (st : Step) : option Result :=
  match st with
  | Skipped _ _ _ => None
  | Converted f _ html _ => Some (mkResult (name f) html)
  end.

Definition stepValid (st : Step) : Prop :=
  match st with
  | Skipped _ text _ => text = None ∨ text = Some EmptyString
  | Converted _ t _ _ => t ≠ EmptyString
  end.


(** The line feed character (code 10, least significant bit first), and
    the texts of a list put one after the other with [sep] between two
    consecutive texts. *)
Definition LF : string :=
  String (Ascii.Ascii false true false true false false false false)
         EmptyString.


(** Name uniqueness of a pending set. *)
Definition uniqueNames (files : list File) : Prop :=
  NoDup (name <$> files).

(** The state in which the mode-specific algorithm starts: the three
    setters called before the [try]. *)
Definition started (s : AppState) : AppState :=
  setResults [] (setError EmptyString (setIsConverting true s)).

(** The state the [catch] and [finally] clauses make of the state [s1]
    in which the algorithm completed as [o]. *)
Definition finished (o : Settled unit) (s1 : AppState) : AppState :=
  setConversionStatus EmptyString
    (setIsConverting false
       match o with
       | Fulfilled _ => s1
       | Rejected Nullish => s1
       | Rejected (Value v) => setError (messageOr v unknownError) s1
       end).

(** The way the handler completes when the algorithm completed as [o]. *)
Definition completion (o : Settled unit) : Settled unit :=
  match o with
  | Rejected Nullish => Rejected typeError
  | _ => Fulfilled tt
  end.

(** The body of the [try]: the algorithm of the mode. *)
Definition algorithm {World : Type}
    (extractPdfText : File → World → Promise (option string) * World)
    (convertTextToHtml : string → World → Settled string * World)
    (s : AppState) : Async World unit :=
  if combineOutput s
  then convertCombined extractPdfText convertTextToHtml (pdfFiles s)
  else convertIndividually extractPdfText convertTextToHtml (pdfFiles s).

(** [s'] is [s] up to the status message. *)
Definition sameUpToStatus (s s' : AppState) : Prop :=
  s' = setConversionStatus (conversionStatus s') s.

(** The files of the extraction calls, in the order of the calls. *)
Definition extractedFiles (cs : list IOCall) : list File :=
  omap (λ c, match c with
             | ExtractCall f _ => Some f
             | ConvertCall _ _ => None
             end) cs.

(** The texts handed to the transformation, in the order of the calls. *)
Definition convertedTexts (cs : list IOCall) : list string :=
  omap (λ c, match c with
             | ExtractCall _ _ => None
             | ConvertCall t _ => Some t
             end) cs.

(** The status an individual run shows while it handles the file of
    index [j]: the name of that file and its position, counted from one,
    out of the number of pending files. *)
Definition progressOf (files : list File) (o : Observation) : Prop :=
  ∃ j f, files !! j = Some f ∧
    conversionStatus (seen o) =
      "Converting " +:+ name f +:+ " (" +:+ pretty (j + 1) +:+ "/"
      +:+ pretty (length files) +:+ ")..." ∧
    match call o with
    | ExtractCall g _ => g = f
    | ConvertCall _ _ => True
    end.

(** Two states a run cannot tell apart: same pending set, same mode. *)
Definition sameInputs (s s' : AppState) : Prop :=
  pdfFiles s' = pdfFiles s ∧ combineOutput s' = combineOutput s.

(** ** Sample inputs *)

Definition fileA : File := mkFile "A.pdf" 1024 1.
Definition fileA' : File := mkFile "A.pdf" 2048 3.
Definition fileB : File := mkFile "B.pdf" 4096 2.
Definition fileScan : File := mkFile "scan.pdf" 512 4.
Definition fileEmpty : File := mkFile "empty.pdf" 256 5.
Definition fileBroken : File := mkFile "broken.pdf" 128 6.
Definition fileCorrupt : File := mkFile "corrupt.pdf" 64 7.

(** An extractor over a world that does not change: [A.pdf] and
    [B.pdf] yield their text, [empty.pdf] yields the empty string,
    [broken.pdf] and [corrupt.pdf] reject, any other file yields
    [null].  The larger the file, the later its promise settles. *)
Definition sampleExtract (f : File) (w : unit)
  : Promise (option string) * unit :=
  (mkPromise
     (if decide (name f = "A.pdf") then Fulfilled (Some "TextA")
      else if decide (name f = "B.pdf") then Fulfilled (Some "TextB")
      else if decide (name f = "empty.pdf") then Fulfilled (Some EmptyString)
      else if decide (name f = "broken.pdf")
           then Rejected (Value (mkError (Some "worker crashed")))
      else if decide (name f = "corrupt.pdf")
           then Rejected (Value (mkError (Some "bad xref table")))
      else Fulfilled None)
     (N.to_nat (byteSize f)), w).

(** A converter that wraps its input. *)
Definition sampleConvert (t : string) (w : unit) : Settled string * unit :=
  (Fulfilled ("<p>" +:+ t +:+ "</p>"), w).

(** A converter that fails on [TextB], with a message. *)
Definition failingConvert (t : string) (w : unit) : Settled string * unit :=
  (if decide (t = "TextB")
   then Rejected (Value (mkError (Some "quota exceeded")))
   else Fulfilled ("<p>" +:+ t +:+ "</p>"), w).

(** A converter that fails on every text, with no message. *)
Definition silentConvert (t : string) (w : unit) : Settled string * unit :=
  (Rejected (Value (mkError None)), w).

(** A converter that rejects with [null] on [TextB]. *)
Definition nullConvert (t : string) (w : unit) : Settled string * unit :=
  (if decide (t = "TextB") then Rejected Nullish
   else Fulfilled ("<p>" +:+ t +:+ "</p>"), w).

(** A converter that rejects every text with [null]. *)
Definition rejectNull (t : string) (w : unit) : Settled string * unit :=
  (Rejected Nullish, w).

(** The state after the user picked [files] and set the toggle. *)
Definition pending (files : list File) (combine : bool) : AppState :=
  setCombineOutput combine (handleFilesAdded files initialState).

(** The state after the user added [A.pdf], converted it and removed
    it: the pending set is empty and the result of the run is still
    there. *)
Definition afterRemoval : AppState :=
  handleRemoveFile "A.pdf"
    (state (handleConvert sampleExtract sampleConvert
              (pending [fileA] true) tt)).

(** * Properties *)

(** ** File set manager *)

Section FileSet.
Implicit Types (s : AppState) (files newFiles : list File) (f : File).

Lemma uniqueNames_filter (P : File → Prop) `{!∀ f, Decision (P f)} files :
  uniqueNames files → uniqueNames (filter P files).
Proof.
  unfold uniqueNames. induction files as [|f files IH]; [done|].
  rewrite fmap_cons, NoDup_cons. intros [Hf Hnd].
  rewrite filter_cons. destruct (decide (P f)); [|by apply IH].
  rewrite fmap_cons, NoDup_cons. split; [|by apply IH].
  intros (g & Hname & Hg)%list_elem_of_fmap.
  apply list_elem_of_filter in Hg as [_ Hg].
  apply Hf, list_elem_of_fmap. eauto.
Qed.

(** The pending set after an add, without the [Set]. *)
Lemma handleFilesAdded_pdfFiles newFiles s :
  pdfFiles (handleFilesAdded newFiles s) =
  pdfFiles s ++
  filter (λ f, name f ∉ name <$> pdfFiles s) newFiles.
Proof.
  unfold handleFilesAdded. cbn. f_equal.
  apply list_filter_iff. intros f.
  by rewrite elem_of_list_to_set.
Qed.

(** X3. An add keeps the names unique when the batch itself has no
    repeated name. *)
Lemma handleFilesAdded_unique newFiles s :
  uniqueNames (pdfFiles s) → uniqueNames newFiles →
  uniqueNames (pdfFiles (handleFilesAdded newFiles s)).
Proof.
  intros Hs Hnew. rewrite handleFilesAdded_pdfFiles.
  unfold uniqueNames. rewrite fmap_app. apply NoDup_app.
  split; [done|]. split; [|by apply uniqueNames_filter].
  intros n Hn (f & -> & Hf)%list_elem_of_fmap.
  by apply list_elem_of_filter in Hf as [Hf _].
Qed.
End FileSet.

(** C6. The add operation does not keep names unique for every batch: a
    batch that repeats a name not yet pending is appended whole.  From
    the empty pending set, adding two files both named [A.pdf] leaves
    both in the pending set. *)
Lemma handleFilesAdded_repeated_name :
  uniqueNames (pdfFiles initialState) ∧
  pdfFiles (handleFilesAdded [fileA; fileA'] initialState) = [fileA; fileA'] ∧
  ¬ uniqueNames (pdfFiles (handleFilesAdded [fileA; fileA'] initialState)).
Proof.
  split; [apply NoDup_nil_2|].
  assert (Heq : pdfFiles (handleFilesAdded [fileA; fileA'] initialState)
                = [fileA; fileA']) by (vm_compute; reflexivity).
  split; [exact Heq|]. rewrite Heq. unfold uniqueNames. cbn.
  intros Hnd. apply NoDup_cons in Hnd as [Hin _]. apply Hin. left.
Qed.

(** C10. Removing by name drops exactly the pending files of that name,
    keeps the others in their order, is a no-op when no file has the
    name, and leaves the results, the error, the in-progress flag, the
    mode and the status as they were; an add and a clear, on the
    contrary, empty the results. *)
Theorem handleRemoveFile_frame (fileName : string) (s : AppState) :
  (∀ f, f ∈ pdfFiles (handleRemoveFile fileName s) ↔
        f ∈ pdfFiles s ∧ name f ≠ fileName) ∧
  pdfFiles (handleRemoveFile fileName s) `sublist_of` pdfFiles s ∧
  ((∀ f, f ∈ pdfFiles s → name f ≠ fileName) →
   handleRemoveFile fileName s = s) ∧
  results (handleRemoveFile fileName s) = results s ∧
  error (handleRemoveFile fileName s) = error s ∧
  isConverting (handleRemoveFile fileName s) = isConverting s ∧
  conversionStatus (handleRemoveFile fileName s) = conversionStatus s ∧
  combineOutput (handleRemoveFile fileName s) = combineOutput s ∧
  (∀ newFiles, results (handleFilesAdded newFiles s) = []) ∧
  results (handleClearAll s) = [].
Proof.
  unfold handleRemoveFile. cbn. split_and!; try done.
  - intros f. rewrite list_elem_of_filter. tauto.
  - apply sublist_filter.
  - intros Hall. destruct s as [files ? ? ? ? ?]. unfold setPdfFiles. cbn in *.
    f_equal. induction files as [|f files IH]; [done|].
    rewrite filter_cons_True by (apply Hall; left).
    f_equal. apply IH. intros g Hg. apply Hall. by right.
Qed.

(** ** Conversion orchestrator *)

(** How [bind] runs, by the outcome of its first computation. *)
Lemma bind_fulfilled {World A B} (m : Async World A) (k : A → Async World B)
    s w a :
  outcome (m s w) = Fulfilled a →
  bind m k s w =
    mkRun (outcome (k a (state (m s w)) (world (m s w))))
          (state (k a (state (m s w)) (world (m s w))))
          (world (k a (state (m s w)) (world (m s w))))
          (log (m s w) ++ log (k a (state (m s w)) (world (m s w)))).
Proof. intros H. unfold bind. by rewrite H. Qed.

Lemma bind_rejected {World A B} (m : Async World A) (k : A → Async World B)
    s w e :
  outcome (m s w) = Rejected e →
  bind m k s w = mkRun (Rejected e) (state (m s w)) (world (m s w)) (log (m s w)).
Proof. intros H. unfold bind. by rewrite H. Qed.

Lemma bind_update {World B} (f : AppState → AppState)
    (k : unit → Async World B) s w :
  bind (update f) k s w = k tt (f s) w.
Proof. unfold bind, update. cbn. by destruct (k tt (f s) w). Qed.

(** [Promise.all] is fulfilled exactly when no promise is rejected. *)
Lemma earliestRejection_None {A} (ps : list (Promise A)) :
  earliestRejection ps = None ↔
  Forall (λ p, ∃ a, settled p = Fulfilled a) ps.
Proof.
  induction ps as [|p ps IH]; cbn; [by split; [constructor|]|].
  rewrite Forall_cons. destruct (settled p) as [a|e].
  - rewrite IH. split; [by split; [eexists|]|by intros [_ ?]].
  - split.
    + destruct (earliestRejection ps) as [[t' e']|]; [|done].
      by destruct (decide (settledAt p ≤ t')%nat).
    + by intros [[a [=]] _].
Qed.

(** The rejection [Promise.all] reports is the rejection of one of the
    promises, and no rejected promise settles before that one. *)
Lemma earliestRejection_Some {A} (ps : list (Promise A)) t e :
  earliestRejection ps = Some (t, e) →
  ∃ p, p ∈ ps ∧ settled p = Rejected e ∧ settledAt p = t ∧
       ∀ q e', q ∈ ps → settled q = Rejected e' → (t ≤ settledAt q)%nat.
Proof.
  revert t e. induction ps as [|p ps IH]; intros t e; cbn; [done|].
  destruct (settled p) as [a|e0] eqn:Hp.
  - intros Hrec. destruct (IH t e Hrec) as (p1 & Hin & Hset & Ht & Hmin).
    exists p1. split_and!; [by right|done|done|].
    intros q e' [->|Hq]%elem_of_cons Hq'; [congruence|by eapply Hmin].
  - destruct (earliestRejection ps) as [[t' e']|] eqn:Hrec.
    + destruct (IH t' e' eq_refl) as (p1 & Hin & Hset & Ht & Hmin).
      destruct (decide (settledAt p ≤ t')%nat) as [Hle|Hgt]; intros [= <- <-].
      * exists p. split_and!; [left|done|done|].
        intros q e'' [->|Hq]%elem_of_cons Hq'; [done|].
        etrans; [exact Hle|]. by eapply Hmin.
      * exists p1. split_and!; [by right|done|done|].
        intros q e'' [->|Hq]%elem_of_cons Hq'; [lia|by eapply Hmin].
    + intros [= <- <-]. exists p. split_and!; [left|done|done|].
      intros q e'' [->|Hq]%elem_of_cons Hq'; [done|].
      apply earliestRejection_None in Hrec. rewrite Forall_forall in Hrec.
      destruct (Hrec q Hq) as [a Ha]. congruence.
Qed.


Lemma promiseAll_rejected {A} (ps : list (Promise A)) e :
  promiseAll ps = Rejected e →
  ∃ p, p ∈ ps ∧ settled p = Rejected e ∧
       ∀ q e', q ∈ ps → settled q = Rejected e' →
               (settledAt p ≤ settledAt q)%nat.
Proof.
  unfold promiseAll.
  destruct (earliestRejection ps) as [[t e0]|] eqn:Hsome; [|done].
  intros [= <-].
  destruct (earliestRejection_Some ps t e0 Hsome)
    as (p & Hin & Hset & <- & Hmin).
  by exists p.
Qed.

Lemma firstRejection_cons c cs :
  firstRejection (c :: cs) =
    match rejection c with
    | Some e => Some e
    | None => firstRejection cs
    end.
Proof. unfold firstRejection. cbn. by destruct (rejection c). Qed.

Lemma firstRejection_app cs1 cs2 :
  firstRejection (cs1 ++ cs2) =
    match firstRejection cs1 with
    | Some e => Some e
    | None => firstRejection cs2
    end.
Proof.
  induction cs1 as [|c cs1 IH]; [done|].
  cbn [List.app]. rewrite !firstRejection_cons.
  by destruct (rejection c).
Qed.

Lemma firstRejection_None cs :
  Forall (λ c, rejection c = None) cs ↔ firstRejection cs = None.
Proof.
  induction cs as [|c cs IH]; [by split; [|constructor]|].
  rewrite Forall_cons, firstRejection_cons, IH.
  destruct (rejection c) as [e|].
  - split; [by intros [? _]|done].
  - split; [by intros [_ ?]|by split].
Qed.

(** The calls of completed steps all succeeded. *)
Lemma steps_no_rejection steps :
  Forall (λ c, rejection c = None) (steps ≫= stepCalls).
Proof.
  induction steps as [|[f text time|f t h time] steps IH]; cbn;
    [constructor|..]; repeat (constructor; [done|]); exact IH.
Qed.

Lemma fan_calls files ps s :
  call <$> zip_with (λ f p, mkObs s (ExtractCall f p)) files ps =
  zip_with ExtractCall files ps.
Proof.
  revert ps. induction files as [|f files IH]; intros [|p ps]; try done.
  cbn. f_equal. apply IH.
Qed.

Lemma fan_seen files ps s :
  Forall (λ o, seen o = s)
         (zip_with (λ f p, mkObs s (ExtractCall f p)) files ps).
Proof.
  revert ps. induction files as [|f files IH]; intros [|p ps];
    try constructor; [done|apply IH].
Qed.

(** The calls of a fan-out and its promises. *)
Lemma fan_elem files (ps : list (Promise (option string))) g q :
  ExtractCall g q ∈ zip_with ExtractCall files ps → q ∈ ps.
Proof.
  revert ps. induction files as [|f files IH]; intros [|p ps]; cbn;
    try by intros ?%elem_of_nil.
  intros [[= _ ->]|Hin]%elem_of_cons; [left|right; by apply IH].
Qed.

Lemma fan_elem_inv files (ps : list (Promise (option string))) p :
  length ps = length files → p ∈ ps →
  ∃ f, ExtractCall f p ∈ zip_with ExtractCall files ps.
Proof.
  revert ps. induction files as [|f files IH]; intros [|p0 ps]; try done.
  { by intros _ ?%elem_of_nil. }
  intros [= Hlen] [->|Hin]%elem_of_cons.
  - exists f. left.
  - destruct (IH ps Hlen Hin) as (g & Hg). exists g. by right.
Qed.

Lemma fan_no_rejection files (ps : list (Promise (option string))) :
  Forall (λ p, ∃ a, settled p = Fulfilled a) ps →
  Forall (λ c, rejection c = None) (zip_with ExtractCall files ps).
Proof.
  intros Hall. revert files.
  induction Hall as [|p ps [a Ha] Hall IH]; intros [|f files];
    try constructor.
  - cbn. by rewrite Ha.
  - apply IH.
Qed.

Lemma fan_rejection files (ps : list (Promise (option string))) e :
  length ps = length files → promiseAll ps = Rejected e →
  firstRejection (zip_with ExtractCall files ps) ≠ None ∧
  caught (zip_with ExtractCall files ps) e.
Proof.
  intros Hlen Hall. split.
  - intros Hnone. apply firstRejection_None in Hnone.
    apply promiseAll_rejected in Hall as (p & Hin & Hset & _).
    destruct (fan_elem_inv files ps p Hlen Hin) as (f & Hf).
    rewrite Forall_forall in Hnone. specialize (Hnone _ Hf).
    cbn in Hnone. by rewrite Hset in Hnone.
  - apply promiseAll_rejected in Hall as (p & Hin & Hset & Hmin).
    destruct (fan_elem_inv files ps p Hlen Hin) as (f & Hf).
    right. exists f, p. split_and!; [done|done|].
    intros g q e' Hq Hq'. eapply Hmin; [|exact Hq']. by eapply fan_elem.
Qed.




Lemma extractedFiles_fan files (ps : list (Promise (option string))) :
  length ps = length files →
  extractedFiles (zip_with ExtractCall files ps) = files.
Proof.
  revert ps. induction files as [|f files IH]; intros [|p ps]; try done.
  intros [= Hlen]. cbn. f_equal. by apply IH.
Qed.

Lemma convertedTexts_fan files (ps : list (Promise (option string))) :
  convertedTexts (zip_with ExtractCall files ps) = [].
Proof.
  revert ps. induction files as [|f files IH]; intros [|p ps]; try done.
  cbn. apply IH.
Qed.

Section Runs.
Context {World : Type}.
Variable extractPdfText : File → World → Promise (option string) * World.
Variable convertTextToHtml : string → World → Settled string * World.

Local Abbreviation mapExtract := (mapExtract extractPdfText).
Local Abbreviation callExtract := (callExtract extractPdfText).
Local Abbreviation callConvert := (callConvert convertTextToHtml).
Local Abbreviation convertCombined :=
  (convertCombined extractPdfText convertTextToHtml).
Local Abbreviation convertEach :=
  (convertEach extractPdfText convertTextToHtml).
Local Abbreviation convertIndividually :=
  (convertIndividually extractPdfText convertTextToHtml).
Local Abbreviation handleConvert :=
  (handleConvert extractPdfText convertTextToHtml).
Local Abbreviation tryBody :=
  (algorithm extractPdfText convertTextToHtml).

(** A call is one observation of the current state; it changes no
    state cell and hands back the promise. *)
Lemma callExtract_run f s w :
  callExtract f s w =
    mkRun (Fulfilled (extractPdfText f w).1) s (extractPdfText f w).2
          [mkObs s (ExtractCall f (extractPdfText f w).1)].
Proof. unfold App.callExtract. by destruct (extractPdfText f w). Qed.

Lemma callConvert_run t s w :
  callConvert t s w =
    mkRun (Fulfilled (convertTextToHtml t w).1) s (convertTextToHtml t w).2
          [mkObs s (ConvertCall t (convertTextToHtml t w).1)].
Proof.
  unfold App.callConvert. by destruct (convertTextToHtml t w).
Qed.

(** The fan-out issues one extraction per file, in order, touches no
    state cell and never throws by itself. *)
Lemma mapExtract_run files s w :
  ∃ ps, outcome (mapExtract files s w) = Fulfilled ps ∧
        state (mapExtract files s w) = s ∧
        length ps = length files ∧
        log (mapExtract files s w) =
          zip_with (λ f p, mkObs s (ExtractCall f p)) files ps.
Proof.
  revert w. induction files as [|f files IH]; intros w.
  - by exists [].
  - cbn [App.mapExtract].
    erewrite bind_fulfilled by (rewrite callExtract_run; reflexivity).
    rewrite callExtract_run. cbn [state world log outcome].
    destruct (IH (extractPdfText f w).2) as (ps & Hout & Happ & Hlen & Hlog).
    erewrite bind_fulfilled by exact Hout.
    cbn. rewrite Happ, Hlog, app_nil_r.
    exists ((extractPdfText f w).1 :: ps). cbn. by rewrite Hlen.
Qed.

(** A run over a non-empty pending set is the algorithm of its mode
    between the start transitions and the clean-up; it makes the calls
    of the algorithm and no other, and it throws only when the failure
    it catches is null or undefined. *)
Lemma handleConvert_nonempty s w :
  pdfFiles s ≠ [] →
  handleConvert s w =
    mkRun (completion (outcome (tryBody s (started s) w)))
          (finished (outcome (tryBody s (started s) w))
                    (state (tryBody s (started s) w)))
          (world (tryBody s (started s) w))
          (log (tryBody s (started s) w)).
Proof.
  intros Hne. unfold App.handleConvert.
  erewrite bind_fulfilled by reflexivity. cbn [getState state world log].
  destruct (decide (length (pdfFiles s) = 0)) as [Hlen|_].
  { by apply nil_length_inv in Hlen. }
  rewrite !bind_update.
  change (if combineOutput s then _ else _) with (tryBody s).
  fold (started s).
  unfold tryCatchFinally, finished, completion.
  destruct (outcome (tryBody s (started s) w)) as [[]|[|v]];
    cbn; by rewrite ?app_nil_r.
Qed.

(** A run over the empty pending set only sets the error. *)
Lemma handleConvert_empty s w :
  pdfFiles s = [] →
  handleConvert s w = mkRun (Fulfilled tt) (setError noFilesError s) w [].
Proof.
  intros He. unfold App.handleConvert.
  erewrite bind_fulfilled by reflexivity. cbn [getState state world log].
  by rewrite He.
Qed.

(** The four ways the combined algorithm can go, from the state [s]
    in which it starts: the fan-out rejects; no text survives; the
    conversion rejects; the conversion succeeds. *)
Lemma convertCombined_run files s w :
  let r := convertCombined files s w in
  let s1 := setConversionStatus (extractingStatus (length files)) s in
  let s2 := setConversionStatus "AI is converting combined text..." s1 in
  ∃ ps, length ps = length files ∧
    let fan := zip_with (λ f p, mkObs s1 (ExtractCall f p)) files ps in
    (∃ e, promiseAll ps = Rejected e ∧
          outcome r = Rejected e ∧ state r = s1 ∧ log r = fan) ∨
    (∃ outs, promiseAll ps = Fulfilled outs ∧ nonNull outs = [] ∧
          outcome r = Rejected (Value (mkError (Some noTextError))) ∧
          state r = s1 ∧ log r = fan) ∨
    (∃ outs e, promiseAll ps = Fulfilled outs ∧ nonNull outs ≠ [] ∧
          outcome r = Rejected e ∧ state r = s2 ∧
          log r = fan ++ [mkObs s2 (ConvertCall
                            (join separator (nonNull outs)) (Rejected e))]) ∨
    (∃ outs h, promiseAll ps = Fulfilled outs ∧ nonNull outs ≠ [] ∧
          outcome r = Fulfilled tt ∧
          state r = setResults [mkResult combinedLabel h] s2 ∧
          log r = fan ++ [mkObs s2 (ConvertCall
                            (join separator (nonNull outs)) (Fulfilled h))]).
Proof.
  intros r s1 s2. subst r. unfold App.convertCombined.
  rewrite bind_update. fold s1.
  destruct (mapExtract_run files s1 w) as (ps & Hout & Happ & Hlen & Hlog).
  exists ps. split; [done|]. cbv zeta.
  erewrite bind_fulfilled by exact Hout. rewrite Happ, Hlog.
  set (fan := zip_with _ files ps).
  destruct (promiseAll ps) as [outs|e] eqn:Hall.
  - erewrite bind_fulfilled by reflexivity. cbn [await state world log outcome].
    destruct (decide (length (nonNull outs) = 0)) as [Hz|Hnz].
    + right; left. exists outs. apply nil_length_inv in Hz.
      cbn. rewrite !app_nil_r. done.
    + assert (nonNull outs ≠ []) as Hne by (by intros Hnil; rewrite Hnil in Hnz).
      rewrite bind_update. fold s2.
      erewrite bind_fulfilled by (rewrite callConvert_run; reflexivity).
      rewrite callConvert_run. cbn [state world log outcome].
      destruct (convertTextToHtml _ _) as [[h|e] w2] eqn:Hconv; cbn.
      * right; right; right. exists outs, h. rewrite ?app_nil_r. done.
      * right; right; left. exists outs, e. rewrite ?app_nil_r. done.
  - left. exists e. erewrite bind_rejected by reflexivity.
    cbn. rewrite ?app_nil_r. done.
Qed.

Lemma truthy_Some text t :
  truthy text = Some t → text = Some t ∧ t ≠ EmptyString.
Proof.
  destruct text as [u|]; cbn; [|done].
  by destruct (decide (u = EmptyString)); intros [= <-].
Qed.

Lemma truthy_None text :
  truthy text = None → text = None ∨ text = Some EmptyString.
Proof.
  destruct text as [u|]; cbn; [|by left].
  destruct (decide (u = EmptyString)) as [->|]; [by right|done].
Qed.

(** Converting one text and awaiting the answer. *)
Lemma convert_await_run {A} t (k : string → A) s w :
  bind (callConvert t) (λ q, bind (await q) (λ h, ret (k h))) s w =
    mkRun match (convertTextToHtml t w).1 with
          | Fulfilled h => Fulfilled (k h)
          | Rejected e => Rejected e
          end
          s (convertTextToHtml t w).2
          [mkObs s (ConvertCall t (convertTextToHtml t w).1)].
Proof.
  erewrite bind_fulfilled by (rewrite callConvert_run; reflexivity).
  rewrite callConvert_run. cbn [state world log outcome].
  destruct (convertTextToHtml t w) as [[h|e] w1]; cbn; by rewrite ?app_nil_r.
Qed.

(** What the loop does from index [i] on: it changes no state cell
    but the status; it handles the files one after the other, each
    extraction followed by the conversion of its text when there is
    one; and it stops at the first call that rejects. *)
Lemma convertEach_run n i files acc s w :
  let r := convertEach n i files acc s w in
  Forall (λ o, sameUpToStatus s (seen o)) (log r) ∧
  sameUpToStatus s (state r) ∧
  ∃ steps, Forall stepValid steps ∧
    ((outcome r = Fulfilled (acc ++ omap stepResult steps) ∧
      stepFile <$> steps = files ∧
      calls r = steps ≫= stepCalls) ∨
     (∃ f post e,
        files = (stepFile <$> steps) ++ f :: post ∧
        outcome r = Rejected e ∧
        ((∃ time, calls r = (steps ≫= stepCalls) ++
                            [ExtractCall f (mkPromise (Rejected e) time)]) ∨
         ∃ t time, t ≠ EmptyString ∧
           calls r = (steps ≫= stepCalls) ++
                     [ExtractCall f (mkPromise (Fulfilled (Some t)) time);
                      ConvertCall t (Rejected e)]))).
Proof.
  revert i acc s w. induction files as [|f rest IH]; intros i acc s w r.
  - subst r. cbn. split; [constructor|]. split; [by destruct s|].
    exists []. split; [constructor|]. left. cbn. by rewrite app_nil_r.
  - subst r. cbn [App.convertEach]. rewrite bind_update.
    set (s1 := setConversionStatus _ s).
    assert (Hs1 : sameUpToStatus s s1) by done.
    assert (Htrans : ∀ s', sameUpToStatus s1 s' → sameUpToStatus s s').
    { intros s' ->. done. }
    erewrite bind_fulfilled by (rewrite callExtract_run; reflexivity).
    rewrite callExtract_run. cbn [state world log outcome].
    destruct (extractPdfText f w) as [[[text|e] time] w1] eqn:Hext;
      cbn [fst snd settled].
    + erewrite bind_fulfilled by reflexivity.
      cbn [await state world log outcome].
      destruct (truthy text) as [t|] eqn:Htr.
      * apply truthy_Some in Htr as [-> Ht].
        destruct (convertTextToHtml t w1) as [[h|e] w2] eqn:Hconv.
        -- erewrite bind_fulfilled
             by (rewrite convert_await_run, Hconv; reflexivity).
           rewrite convert_await_run, Hconv. cbn [fst snd state world log outcome].
           specialize (IH (S i) (acc ++ [mkResult (name f) h]) s1 w2).
           cbv zeta in IH. destruct IH as (Hlog & Happ & steps & Hval & Hcase).
           split.
           { rewrite ?Forall_app, ?Forall_cons, ?Forall_nil.
             by split_and!. }
           split; [by apply Htrans|].
           exists (Converted f t h time :: steps). split; [by constructor|].
           unfold calls in *. cbn [log]. rewrite !fmap_app. cbn.
           destruct Hcase as [(Hout & Hfiles & Hcalls)|(g & post & e & Hfiles & Hout & Hcalls)].
           ++ left. split_and!.
              ** by rewrite Hout, <-app_assoc.
              ** by f_equal.
              ** do 2 f_equal. exact Hcalls.
           ++ right. exists g, post, e. split_and!; [by f_equal|done|].
              destruct Hcalls as [(time' & Hcalls)|(t' & time' & Ht' & Hcalls)].
              ** left. exists time'. do 2 f_equal. exact Hcalls.
              ** right. exists t', time'. split; [done|].
                 do 2 f_equal. exact Hcalls.
        -- erewrite bind_rejected
             by (rewrite convert_await_run, Hconv; reflexivity).
           rewrite convert_await_run, Hconv. cbn [fst snd state world log outcome].
           split; [by repeat constructor|]. split; [done|].
           exists []. split; [constructor|]. right. exists f, rest, e.
           split; [done|]. split; [done|]. right. by exists t, time.
      * apply truthy_None in Htr.
        erewrite bind_fulfilled by reflexivity. cbn [ret state world log outcome].
        specialize (IH (S i) acc s1 w1).
        cbv zeta in IH. destruct IH as (Hlog & Happ & steps & Hval & Hcase).
        split.
        { rewrite ?Forall_app, ?Forall_cons, ?Forall_nil.
          by split_and!. }
        split; [by apply Htrans|].
        exists (Skipped f text time :: steps). split; [by constructor|].
        unfold calls in *. cbn [log]. rewrite !fmap_app. cbn.
        destruct Hcase as [(Hout & Hfiles & Hcalls)|(g & post & e & Hfiles & Hout & Hcalls)].
        ++ left. split_and!; [done|by f_equal|]. f_equal. exact Hcalls.
        ++ right. exists g, post, e. split_and!; [by f_equal|done|].
           destruct Hcalls as [(time' & Hcalls)|(t' & time' & Ht' & Hcalls)].
           ** left. exists time'. f_equal. exact Hcalls.
           ** right. exists t', time'. split; [done|]. f_equal. exact Hcalls.
    + erewrite bind_rejected by reflexivity. cbn [await state world log outcome].
      split; [by repeat constructor|]. split; [done|].
      exists []. split; [constructor|]. right. exists f, rest, e.
      split; [done|]. split; [done|]. left. by exists time.
Qed.

(** The individual algorithm: the loop, then the results set at once. *)
Lemma convertIndividually_run files s w :
  let r := convertIndividually files s w in
  Forall (λ o, sameUpToStatus s (seen o)) (log r) ∧
  ∃ s1 steps, sameUpToStatus s s1 ∧ Forall stepValid steps ∧
    ((outcome r = Fulfilled tt ∧
      state r = setResults (omap stepResult steps) s1 ∧
      stepFile <$> steps = files ∧
      calls r = steps ≫= stepCalls) ∨
     (∃ f post e,
        files = (stepFile <$> steps) ++ f :: post ∧
        outcome r = Rejected e ∧ state r = s1 ∧
        ((∃ time, calls r = (steps ≫= stepCalls) ++
                            [ExtractCall f (mkPromise (Rejected e) time)]) ∨
         ∃ t time, t ≠ EmptyString ∧
           calls r = (steps ≫= stepCalls) ++
                     [ExtractCall f (mkPromise (Fulfilled (Some t)) time);
                      ConvertCall t (Rejected e)]))).
Proof.
  intros r. subst r. unfold App.convertIndividually.
  destruct (convertEach_run (length files) 0 files [] s w)
    as (Hlog & Hst & steps & Hval & Hcase).
  set (r := convertEach _ _ _ _ _ _) in *.
  destruct Hcase as [(Hout & Hfiles & Hcalls)
                    |(f & post & e & Hfiles & Hout & Hcalls)].
  - erewrite bind_fulfilled by exact Hout. unfold calls. cbn.
    rewrite app_nil_r. split; [done|].
    exists (state r), steps. split_and!; try done. by left.
  - erewrite bind_rejected by exact Hout. unfold calls. cbn.
    split; [done|].
    exists (state r), steps. split_and!; try done.
    right. by exists f, post, e.
Qed.

(** Both algorithms leave every state cell but the status and the
    results alone, show the state they started in (up to the status) at
    each of their calls, and touch the results only when they
    complete. *)
Lemma algorithm_frame s s0 w :
  let r := tryBody s s0 w in
  Forall (λ o, sameUpToStatus s0 (seen o)) (log r) ∧
  ∃ s1, sameUpToStatus s0 s1 ∧
    match outcome r with
    | Fulfilled _ => ∃ rs, state r = setResults rs s1
    | Rejected _ => state r = s1
    end.
Proof.
  intros r. subst r. unfold algorithm.
  destruct (combineOutput s).
  - destruct (convertCombined_run (pdfFiles s) s0 w)
      as (ps & Hlen & Hcase). cbv zeta in Hcase.
    set (r := convertCombined _ _ _) in *.
    set (s1 := setConversionStatus (extractingStatus _) s0) in *.
    set (s2 := setConversionStatus _ s1) in *.
    pose proof (fan_seen (pdfFiles s) ps s1) as Hfan.
    assert (Hfan' : Forall (λ o, sameUpToStatus s0 (seen o))
              (zip_with (λ f p, mkObs s1 (ExtractCall f p)) (pdfFiles s) ps)).
    { eapply Forall_impl; [exact Hfan|]. by intros o ->. }
    destruct Hcase as [(e & _ & Hout & Hst & Hlog)
                      |[(outs & _ & _ & Hout & Hst & Hlog)
                      |[(outs & e & _ & _ & Hout & Hst & Hlog)
                      |(outs & h & _ & _ & Hout & Hst & Hlog)]]];
      rewrite Hout, Hst, Hlog.
    + split; [done|]. by exists s1.
    + split; [done|]. by exists s1.
    + split; [|by exists s2].
      apply Forall_app. split; [done|]. by repeat constructor.
    + split; [|exists s2; split; [done|by eexists]].
      apply Forall_app. split; [done|]. by repeat constructor.
  - destruct (convertIndividually_run (pdfFiles s) s0 w)
      as (Hlog & s1 & steps & Hs1 & _ & Hcase).
    split; [done|]. exists s1. split; [done|].
    destruct Hcase as [(-> & -> & _)|(f & post & e & _ & -> & -> & _)];
      [by eexists|done].
Qed.

(** A combined run, by cases. *)
Lemma handleConvert_combined s w :
  combineOutput s = true → pdfFiles s ≠ [] →
  let r := handleConvert s w in
  ∃ ps, length ps = length (pdfFiles s) ∧
    let fan := zip_with ExtractCall (pdfFiles s) ps in
    ((∃ e, promiseAll ps = Rejected e ∧
        calls r = fan ∧
        results (state r) = [] ∧
        error (state r) = match e with
                          | Nullish => EmptyString
                          | Value v => messageOr v unknownError
                          end ∧
        outcome r = completion (Rejected e)) ∨
     (∃ outs, promiseAll ps = Fulfilled outs ∧ nonNull outs = [] ∧
        calls r = fan ∧
        results (state r) = [] ∧ error (state r) = noTextError ∧
        outcome r = Fulfilled tt) ∨
     (∃ outs e, promiseAll ps = Fulfilled outs ∧ nonNull outs ≠ [] ∧
        calls r = fan ++
                  [ConvertCall (join separator (nonNull outs)) (Rejected e)] ∧
        results (state r) = [] ∧
        error (state r) = match e with
                          | Nullish => EmptyString
                          | Value v => messageOr v unknownError
                          end ∧
        outcome r = completion (Rejected e)) ∨
     (∃ outs h, promiseAll ps = Fulfilled outs ∧ nonNull outs ≠ [] ∧
        calls r = fan ++
                  [ConvertCall (join separator (nonNull outs)) (Fulfilled h)] ∧
        results (state r) = [mkResult combinedLabel h] ∧
        error (state r) = EmptyString ∧
        outcome r = Fulfilled tt)).
Proof.
  intros Hmode Hne r. subst r. rewrite (handleConvert_nonempty s w Hne).
  unfold algorithm. rewrite Hmode. unfold calls. cbn [state log outcome].
  destruct (convertCombined_run (pdfFiles s) (started s) w)
    as (ps & Hlen & Hcase). cbv zeta in Hcase.
  exists ps. split; [done|]. cbv zeta.
  destruct Hcase as [(e & Hall & Hout & Hst & Hlog)
                    |[(outs & Hall & Hnil & Hout & Hst & Hlog)
                    |[(outs & e & Hall & Hnn & Hout & Hst & Hlog)
                    |(outs & h & Hall & Hnn & Hout & Hst & Hlog)]]];
    rewrite Hout, Hst, Hlog, ?fmap_app, fan_calls.
  - left. exists e. by destruct e.
  - right; left. by exists outs.
  - right; right; left. exists outs, e. by destruct e.
  - right; right; right. by exists outs, h.
Qed.



(** C5, as the code has it.  After a run that passed the validation
    check, the result set is empty or the error is: never both
    non-empty. *)
Theorem results_or_error s w :
  pdfFiles s ≠ [] →
  let r := handleConvert s w in
  results (state r) = [] ∨ error (state r) = EmptyString.
Proof.
  intros Hne r. subst r. rewrite (handleConvert_nonempty s w Hne).
  cbn [state].
  destruct (algorithm_frame s (started s) w) as (_ & s1 & Hs1 & Hout).
  destruct (outcome (tryBody s (started s) w)) as [[]|[|v]].
  - right. destruct Hout as (rs & ->). by rewrite Hs1.
  - left. rewrite Hout. by rewrite Hs1.
  - left. rewrite Hout. by rewrite Hs1.
Qed.

(** C7. On an empty pending set a run sets the error to the
    validation message and does nothing else: it calls neither
    collaborator, leaves the world as it was, and changes no other
    state cell (the flag, the results and the status keep their
    values). *)
Theorem empty_pending_rejected s w :
  pdfFiles s = [] →
  let r := handleConvert s w in
  error (state r) = "Please select one or more PDF files first." ∧
  calls r = [] ∧
  world r = w ∧
  state r = setError (error (state r)) s ∧
  isConverting (state r) = isConverting s ∧
  results (state r) = results s ∧
  conversionStatus (state r) = conversionStatus s.
Proof.
  intros He r. subst r. by rewrite (handleConvert_empty s w He).
Qed.

(** An individual run, by cases: the loop went through every file, or
    it stopped at the first call that rejected. *)
Lemma handleConvert_individual s w :
  combineOutput s = false → pdfFiles s ≠ [] →
  let r := handleConvert s w in
  Forall (λ o, sameUpToStatus (started s) (seen o)) (log r) ∧
  ∃ steps, Forall stepValid steps ∧
    ((stepFile <$> steps = pdfFiles s ∧
      calls r = steps ≫= stepCalls ∧
      results (state r) = omap stepResult steps ∧
      error (state r) = EmptyString ∧
      outcome r = Fulfilled tt) ∨
     (∃ f post e,
        pdfFiles s = (stepFile <$> steps) ++ f :: post ∧
        results (state r) = [] ∧
        error (state r) = match e with
                          | Nullish => EmptyString
                          | Value v => messageOr v unknownError
                          end ∧
        outcome r = completion (Rejected e) ∧
        ((∃ time, calls r = (steps ≫= stepCalls) ++
                            [ExtractCall f (mkPromise (Rejected e) time)]) ∨
         ∃ t time, t ≠ EmptyString ∧
           calls r = (steps ≫= stepCalls) ++
                     [ExtractCall f (mkPromise (Fulfilled (Some t)) time);
                      ConvertCall t (Rejected e)]))).
Proof.
  intros Hmode Hne r. subst r. rewrite (handleConvert_nonempty s w Hne).
  unfold algorithm. rewrite Hmode. unfold calls. cbn [state log outcome].
  destruct (convertIndividually_run (pdfFiles s) (started s) w)
    as (Hlog & s1 & steps & Hs1 & Hval & Hcase).
  split; [done|]. exists steps. split; [done|].
  destruct Hcase as [(Hout & Hst & Hfiles & Hcalls)
                    |(f & post & e & Hfiles & Hout & Hst & Hcalls)];
    rewrite Hout, Hst.
  - left. split_and!; try done. cbn. by rewrite Hs1.
  - right. exists f, post, e.
    split_and!; try done; destruct e; cbn; first [done|by rewrite Hs1].
Qed.

(** An individual run in which no call rejects goes through every
    file. *)
Lemma handleConvert_individual_complete s w :
  combineOutput s = false → pdfFiles s ≠ [] →
  let r := handleConvert s w in
  Forall (λ c, rejection c = None) (calls r) →
  ∃ steps, Forall stepValid steps ∧
    stepFile <$> steps = pdfFiles s ∧
    calls r = steps ≫= stepCalls ∧
    results (state r) = omap stepResult steps ∧
    error (state r) = EmptyString.
Proof.
  intros Hmode Hne r Hok.
  destruct (handleConvert_individual s w Hmode Hne)
    as (_ & steps & Hval & [Hdone|(f & post & e & _ & _ & _ & _ & Hcalls)]).
  - exists steps. by destruct Hdone as (? & ? & ? & ? & _).
  - exfalso. fold r in Hcalls.
    assert (Hin : ∃ c, c ∈ calls r ∧ rejection c = Some e).
    { destruct Hcalls as [(time & ->)|(t & time & _ & ->)].
      - exists (ExtractCall f (mkPromise (Rejected e) time)). split; [|done].
        apply elem_of_app. right. left.
      - exists (ConvertCall t (Rejected e)). split; [|done].
        apply elem_of_app. right. right. left. }
    destruct Hin as (c & Hc & Hrej).
    rewrite Forall_forall in Hok. by rewrite (Hok c Hc) in Hrej.
Qed.



(** C9, as the code has it.  In individual mode the results are
    collected in a local list and the result set is replaced once,
    after the last file: at every call of the run the observable
    result set is empty, and when no call rejects the result set the
    run leaves is the whole list of the results of the files, one for
    each file whose extraction yielded text, with the output of the
    conversion of that text. *)
Theorem individual_results_set_once s w :
  combineOutput s = false → pdfFiles s ≠ [] →
  let r := handleConvert s w in
  Forall (λ o, results (seen o) = []) (log r) ∧
  (Forall (λ c, rejection c = None) (calls r) →
   ∃ steps, Forall stepValid steps ∧
            stepFile <$> steps = pdfFiles s ∧
            calls r = steps ≫= stepCalls ∧
            results (state r) = omap stepResult steps).
Proof.
  intros Hmode Hne r. split.
  - destruct (handleConvert_individual s w Hmode Hne) as (Hlog & _).
    eapply Forall_impl; [exact Hlog|]. by intros o ->.
  - intros Hok.
    destruct (handleConvert_individual_complete s w Hmode Hne Hok)
      as (steps & Hval & Hfiles & Hcalls & Hres & _).
    by exists steps.
Qed.
End Runs.

(** ** The properties on sample runs *)

(** Scenario 1 of the specification: two files, combined mode, both
    extracted. *)
Example scenario_combined :
  let r := handleConvert sampleExtract sampleConvert
             (pending [fileA; fileB] true) tt in
  calls r =
    [ExtractCall fileA (mkPromise (Fulfilled (Some "TextA")) 1024);
     ExtractCall fileB (mkPromise (Fulfilled (Some "TextB")) 4096);
     ConvertCall ("TextA" +:+ LF +:+ LF +:+ "<hr />" +:+ LF +:+ LF +:+ "TextB")
       (Fulfilled ("<p>TextA" +:+ LF +:+ LF +:+ "<hr />" +:+ LF +:+ LF
                   +:+ "TextB</p>"))] ∧
  results (state r) =
    [mkResult "Combined Output"
       ("<p>TextA" +:+ LF +:+ LF +:+ "<hr />" +:+ LF +:+ LF +:+ "TextB</p>")] ∧
  error (state r) = EmptyString.
Proof. vm_compute. done. Qed.

(** Scenario 2: individual mode, the second file fails extraction. *)
Example scenario_individual :
  let r := handleConvert sampleExtract sampleConvert
             (pending [fileA; fileScan] false) tt in
  results (state r) = [mkResult "A.pdf" "<p>TextA</p>"] ∧
  error (state r) = EmptyString ∧ outcome r = Fulfilled tt.
Proof. vm_compute. done. Qed.

(** Scenario 3: combined mode, the only file fails extraction. *)
Example scenario_no_text :
  let r := handleConvert sampleExtract sampleConvert
             (pending [fileScan] true) tt in
  results (state r) = [] ∧
  error (state r) = "Could not extract text from any of the provided files."
  ∧ calls r = [ExtractCall fileScan (mkPromise (Fulfilled None) 512)].
Proof. vm_compute. done. Qed.

(** Scenario 4: adding [A.pdf], then [A.pdf] and [B.pdf]. *)
Example scenario_add_twice :
  pdfFiles (handleFilesAdded [fileA; fileB]
              (handleFilesAdded [fileA] initialState)) = [fileA; fileB].
Proof. vm_compute. done. Qed.

(** Two extractions of a fan-out reject: the error is the message of
    the one that settles first, here the second one submitted. *)
Example scenario_race :
  let r := handleConvert sampleExtract sampleConvert
             (pending [fileBroken; fileCorrupt; fileA] true) tt in
  extractedFiles (calls r) = [fileBroken; fileCorrupt; fileA] ∧
  error (state r) = "bad xref table" ∧ results (state r) = [].
Proof. vm_compute. done. Qed.



(** C3. A combined run whose transformation rejects with null: the
    failure carries no message, yet the error is not set to the generic
    message; it stays empty, the results are empty, and the handler
    itself throws. *)
Lemma combined_null_rejection :
  let r := handleConvert sampleExtract rejectNull (pending [fileA] true) tt in
  calls r = [ExtractCall fileA (mkPromise (Fulfilled (Some "TextA")) 1024);
             ConvertCall "TextA" (Rejected Nullish)] ∧
  results (state r) = [] ∧
  error (state r) = EmptyString ∧
  error (state r) ≠ "An unknown error occurred during conversion." ∧
  isConverting (state r) = false ∧
  ∃ e, outcome r = Rejected e.
Proof. vm_compute. split_and!; try done. by eexists. Qed.


(** C5. The claim as stated fails on a run rejected by the validation
    check: after adding a file, converting it and removing it, the
    pending set is empty and a result is still there; a run from that
    state sets the error and keeps the result. *)
Lemma stale_results_with_error :
  let r := handleConvert sampleExtract sampleConvert afterRemoval tt in
  pdfFiles afterRemoval = [] ∧
  results (state r) ≠ [] ∧ error (state r) ≠ EmptyString.
Proof. vm_compute. by split_and!. Qed.

Lemma results_or_error_witness :
  let s := pending [fileA; fileB] false in
  let r := handleConvert sampleExtract failingConvert s tt in
  pdfFiles s ≠ [] ∧
  (results (state r) = [] ∨ error (state r) = EmptyString).
Proof.
  intros s r.
  assert (H1 : pdfFiles s ≠ []) by (vm_compute; discriminate).
  split; [exact H1|].
  exact (results_or_error sampleExtract failingConvert s tt H1).
Defined.

(** A run on the empty pending set, with a result of an earlier run
    still in the state. *)
Lemma empty_pending_rejected_witness :
  let s := afterRemoval in
  let r := handleConvert sampleExtract sampleConvert s tt in
  pdfFiles s = [] ∧
  error (state r) = "Please select one or more PDF files first." ∧
  calls r = [] ∧
  world r = tt ∧
  state r = setError (error (state r)) s ∧
  isConverting (state r) = isConverting s ∧
  results (state r) = results s ∧
  conversionStatus (state r) = conversionStatus s.
Proof.
  intros s r.
  assert (H1 : pdfFiles s = []) by (vm_compute; reflexivity).
  split; [exact H1|].
  exact (empty_pending_rejected sampleExtract sampleConvert s tt H1).
Defined.



(** C8. An individual run in which the transformation of the second
    text rejects with null: the run stops there and the results are
    empty, but the error is not set from the failure, nor to the generic
    message; it stays empty, and the handler itself throws. *)
Lemma individual_null_rejection :
  let s := pending [fileA; fileB; fileScan] false in
  let r := handleConvert sampleExtract nullConvert s tt in
  calls r =
    [ExtractCall fileA (mkPromise (Fulfilled (Some "TextA")) 1024);
     ConvertCall "TextA" (Fulfilled "<p>TextA</p>");
     ExtractCall fileB (mkPromise (Fulfilled (Some "TextB")) 4096);
     ConvertCall "TextB" (Rejected Nullish)] ∧
  results (state r) = [] ∧
  error (state r) = EmptyString ∧
  error (state r) ≠ "An unknown error occurred during conversion." ∧
  ∃ e, outcome r = Rejected e.
Proof. vm_compute. split_and!; try done. by eexists. Qed.

(** C9. The claim as stated fails on two files that both convert: when
    the extraction of the second file is issued, after the first file
    was extracted and converted, the observable result set does not
    hold the result of the first file; it is empty. *)
Lemma results_not_grown_during_run :
  let s := pending [fileA; fileB] false in
  let r := handleConvert sampleExtract sampleConvert s tt in
  ∃ o, log r !! 2 = Some o ∧
       take 2 (calls r) =
         [ExtractCall fileA (mkPromise (Fulfilled (Some "TextA")) 1024);
          ConvertCall "TextA" (Fulfilled "<p>TextA</p>")] ∧
       call o = ExtractCall fileB (mkPromise (Fulfilled (Some "TextB")) 4096) ∧
       results (seen o) = [] ∧
       (mkResult "A.pdf" "<p>TextA</p>" ∉ results (seen o)) ∧
       mkResult "A.pdf" "<p>TextA</p>" ∈ results (state r).
Proof.
  eexists. vm_compute. split_and!; try done.
  - apply not_elem_of_nil.
  - left.
Qed.

Lemma individual_results_set_once_witness :
  let s := pending [fileA; fileB] false in
  let r := handleConvert sampleExtract sampleConvert s tt in
  (combineOutput s = false ∧ pdfFiles s ≠ [] ∧
   Forall (λ c, rejection c = None) (calls r)) ∧
  Forall (λ o, results (seen o) = []) (log r) ∧
  ∃ steps, Forall stepValid steps ∧
           stepFile <$> steps = pdfFiles s ∧
           calls r = steps ≫= stepCalls ∧
           results (state r) = omap stepResult steps.
Proof.
  intros s r.
  assert (H1 : combineOutput s = false) by reflexivity.
  assert (H2 : pdfFiles s ≠ []) by (vm_compute; discriminate).
  assert (H3 : Forall (λ c, rejection c = None) (calls r))
    by (vm_compute; repeat constructor).
  split; [by split_and!|].
  destruct (individual_results_set_once sampleExtract sampleConvert s tt H1 H2)
    as [Hlog Hres].
  split; [exact Hlog|exact (Hres H3)].
Defined.
(** * Further properties of the component *)

(** ** File set manager *)

Lemma filter_none {A} (P : A → Prop) `{!∀ x, Decision (P x)} (l : list A) :
  (∀ x, x ∈ l → ¬ P x) → filter P l = [].
Proof.
  induction l as [|x l IH]; [done|]. intros Hall.
  rewrite filter_cons_False by (apply Hall; left).
  apply IH. intros y Hy. apply Hall. by right.
Qed.

Lemma filter_all {A} (P : A → Prop) `{!∀ x, Decision (P x)} (l : list A) :
  (∀ x, x ∈ l → P x) → filter P l = l.
Proof.
  induction l as [|x l IH]; [done|]. intros Hall.
  rewrite filter_cons_True by (apply Hall; left).
  f_equal. apply IH. intros y Hy. apply Hall. by right.
Qed.

(** Two states with the same cells are the same state. *)
Lemma state_eq (s s' : AppState) :
  pdfFiles s = pdfFiles s' → isConverting s = isConverting s' →
  results s = results s' → error s = error s' →
  combineOutput s = combineOutput s' →
  conversionStatus s = conversionStatus s' → s = s'.
Proof. destruct s, s'. cbn. by intros -> -> -> -> -> ->. Qed.

(** X1. Adding the same batch a second time changes nothing: every
    candidate of the batch now collides with a pending name. *)
Theorem handleFilesAdded_idempotent (newFiles : list File) (s : AppState) :
  handleFilesAdded newFiles (handleFilesAdded newFiles s) =
  handleFilesAdded newFiles s.
Proof.
  apply state_eq; try done.
  rewrite (handleFilesAdded_pdfFiles newFiles (handleFilesAdded newFiles s)).
  rewrite filter_none; [by rewrite app_nil_r|].
  intros f Hf Hnot. apply Hnot.
  rewrite handleFilesAdded_pdfFiles, fmap_app, elem_of_app.
  destruct (decide (name f ∈ name <$> pdfFiles s)) as [Hin|Hout]; [by left|].
  right. apply list_elem_of_fmap. exists f. split; [done|].
  by apply list_elem_of_filter.
Qed.

(** X2. After an add, the pending names are the names that were
    pending together with the names of the batch; the files that were
    pending come first, untouched, and what follows them is taken from
    the batch in arrival order. *)
Theorem handleFilesAdded_names (newFiles : list File) (s : AppState) :
  (∀ n, n ∈ name <$> pdfFiles (handleFilesAdded newFiles s) ↔
        n ∈ name <$> pdfFiles s ∨ n ∈ name <$> newFiles) ∧
  take (length (pdfFiles s)) (pdfFiles (handleFilesAdded newFiles s)) =
    pdfFiles s ∧
  drop (length (pdfFiles s)) (pdfFiles (handleFilesAdded newFiles s))
    `sublist_of` newFiles.
Proof.
  rewrite handleFilesAdded_pdfFiles. split_and!.
  - intros n. rewrite fmap_app, elem_of_app. split.
    + intros [Hn|Hn]; [by left|]. right.
      apply list_elem_of_fmap in Hn as (f & -> & Hf).
      apply list_elem_of_filter in Hf as [_ Hf].
      by apply list_elem_of_fmap_2.
    + intros [Hn|Hn]; [by left|].
      destruct (decide (n ∈ name <$> pdfFiles s)) as [Hin|Hout]; [by left|].
      right. apply list_elem_of_fmap in Hn as (f & -> & Hf).
      apply list_elem_of_fmap_2. by apply list_elem_of_filter.
  - by rewrite take_app_length.
  - rewrite drop_app_length. apply sublist_filter.
Qed.

(** X4. A batch whose names are all pending already leaves the pending
    set as it is (the empty batch is one), but the results and the
    error are cleared all the same. *)
Theorem handleFilesAdded_known_names (newFiles : list File) (s : AppState) :
  (∀ f, f ∈ newFiles → name f ∈ name <$> pdfFiles s) →
  pdfFiles (handleFilesAdded newFiles s) = pdfFiles s ∧
  results (handleFilesAdded newFiles s) = [] ∧
  error (handleFilesAdded newFiles s) = EmptyString.
Proof.
  intros Hall. split; [|done].
  rewrite handleFilesAdded_pdfFiles, filter_none; [by rewrite app_nil_r|].
  intros f Hf Hnot. by apply Hnot, Hall.
Qed.

(** X5. Adding one file whose name is not pending and removing that
    name gives back the pending set. *)
Theorem add_then_remove (f : File) (s : AppState) :
  name f ∉ name <$> pdfFiles s →
  pdfFiles (handleRemoveFile (name f) (handleFilesAdded [f] s)) = pdfFiles s.
Proof.
  intros Hnew. unfold handleRemoveFile. cbn [pdfFiles setPdfFiles].
  rewrite handleFilesAdded_pdfFiles, filter_app.
  rewrite (filter_all _ (pdfFiles s)).
  - rewrite (filter_cons _ f), filter_nil.
    destruct (decide (name f ∉ name <$> pdfFiles s)); [|done].
    rewrite (filter_cons _ f), filter_nil.
    destruct (decide (name f ≠ name f)); [done|]. by rewrite app_nil_r.
  - intros g Hg Heq. apply Hnew. rewrite <-Heq. by apply list_elem_of_fmap_2.
Qed.

(** X6. Removing by name keeps the names unique, and in a pending set
    with unique names it removes exactly one file when the name is
    pending. *)
Theorem handleRemoveFile_unique (fileName : string) (s : AppState) :
  uniqueNames (pdfFiles s) →
  uniqueNames (pdfFiles (handleRemoveFile fileName s)) ∧
  (fileName ∈ name <$> pdfFiles s →
   S (length (pdfFiles (handleRemoveFile fileName s))) = length (pdfFiles s)).
Proof.
  intros Hnd. split; [by apply uniqueNames_filter|].
  unfold handleRemoveFile. cbn [pdfFiles setPdfFiles].
  revert Hnd. unfold uniqueNames.
  induction (pdfFiles s) as [|f files IH].
  - by intros _ ?%elem_of_nil.
  - rewrite fmap_cons. intros [Hf Hnd]%NoDup_cons Hin.
    destruct (decide (name f = fileName)) as [<-|Hne].
    + rewrite filter_cons_False by (by intros H).
      rewrite filter_all; [done|].
      intros g Hg Heq. apply Hf. rewrite <-Heq. by apply list_elem_of_fmap_2.
    + rewrite filter_cons_True by done. cbn [length]. f_equal.
      apply IH; [done|]. by apply elem_of_cons in Hin as [?|?].
Qed.

(** X7. Removals commute, and removing a name twice is removing it
    once. *)
Theorem handleRemoveFile_commute (a b : string) (s : AppState) :
  handleRemoveFile a (handleRemoveFile b s) =
    handleRemoveFile b (handleRemoveFile a s) ∧
  handleRemoveFile a (handleRemoveFile a s) = handleRemoveFile a s.
Proof.
  split; apply state_eq; try done; unfold handleRemoveFile;
    cbn [pdfFiles setPdfFiles]; rewrite !list_filter_filter;
    apply list_filter_iff; intros f; tauto.
Qed.

(** X8. A clear forgets what an add or a removal did before it, and an
    add that follows a clear takes the whole batch, repeated names
    included. *)
Theorem handleClearAll_absorbs (newFiles : list File) (fileName : string)
    (s : AppState) :
  handleClearAll (handleFilesAdded newFiles s) = handleClearAll s ∧
  handleClearAll (handleRemoveFile fileName s) = handleClearAll s ∧
  pdfFiles (handleFilesAdded newFiles (handleClearAll s)) = newFiles.
Proof.
  split_and!; [done|done|].
  rewrite handleFilesAdded_pdfFiles. cbn.
  apply filter_all. intros f _. apply not_elem_of_nil.
Qed.

(** ** Conversion orchestrator *)

Lemma convertingStatus_nonempty fname i n :
  convertingStatus fname i n ≠ EmptyString.
Proof. done. Qed.

Lemma extractingStatus_nonempty n : extractingStatus n ≠ EmptyString.
Proof. done. Qed.

Lemma messageOr_nonempty e fallback :
  fallback ≠ EmptyString → messageOr e fallback ≠ EmptyString.
Proof.
  intros Hf. unfold messageOr. destruct (message e) as [m|]; [|done].
  by destruct (decide (m = EmptyString)).
Qed.

Lemma extractedFiles_steps steps :
  extractedFiles (steps ≫= stepCalls) = stepFile <$> steps.
Proof.
  induction steps as [|[f text time|f t h time] steps IH]; [done|..];
    cbn; f_equal; exact IH.
Qed.

Lemma convertedTexts_steps steps :
  Forall stepValid steps →
  Forall (λ t, t ≠ EmptyString) (convertedTexts (steps ≫= stepCalls)) ∧
  (length (convertedTexts (steps ≫= stepCalls)) ≤ length steps)%nat.
Proof.
  induction 1 as [|[f text time|f t h time] steps Hv Hval [IH1 IH2]].
  - split; [constructor|done].
  - split; [exact IH1|]. etrans; [exact IH2|]. cbn. lia.
  - split; [by constructor|]. cbn [length]. apply le_n_S. exact IH2.
Qed.

Lemma labels_steps steps :
  fileName <$> omap stepResult steps `sublist_of` name <$> (stepFile <$> steps).
Proof.
  induction steps as [|[f text time|f t h time] steps IH]; cbn.
  - constructor.
  - by constructor.
  - by constructor.
Qed.

Section MoreRuns.
Context {World : Type}.
Variable extractPdfText : File → World → Promise (option string) * World.
Variable convertTextToHtml : string → World → Settled string * World.

Local Abbreviation convertCombined :=
  (convertCombined extractPdfText convertTextToHtml).
Local Abbreviation convertEach :=
  (convertEach extractPdfText convertTextToHtml).
Local Abbreviation convertIndividually :=
  (convertIndividually extractPdfText convertTextToHtml).
Local Abbreviation handleConvert :=
  (handleConvert extractPdfText convertTextToHtml).
Local Abbreviation tryBody :=
  (algorithm extractPdfText convertTextToHtml).

(** One turn of the loop: with the status of the file set, the
    extraction of the file, possibly the conversion of its text, and
    then, unless a call rejected, the rest of the loop. *)
Lemma convertEach_cons_log n i f rest acc s w :
  let s1 := setConversionStatus (convertingStatus (name f) i n) s in
  ∃ head tail,
    log (convertEach n i (f :: rest) acc s w) = head ++ tail ∧
    Forall (λ o, seen o = s1 ∧
                 match call o with
                 | ExtractCall g _ => g = f
                 | ConvertCall _ _ => True
                 end) head ∧
    (tail = [] ∨
     ∃ acc' w', tail = log (convertEach n (S i) rest acc' s1 w')).
Proof.
  intros s1. cbn [App.convertEach]. rewrite bind_update. fold s1.
  erewrite bind_fulfilled by (rewrite callExtract_run; reflexivity).
  rewrite callExtract_run. cbn [state world log outcome].
  destruct (extractPdfText f w) as [[[text|e] time] w1] eqn:Hext;
    cbn [fst snd settled].
  - erewrite bind_fulfilled by reflexivity.
    cbn [await state world log outcome].
    destruct (truthy text) as [t|] eqn:Htr.
    + destruct (convertTextToHtml t w1) as [[h|e] w2] eqn:Hconv.
      * erewrite bind_fulfilled
          by (rewrite convert_await_run, Hconv; reflexivity).
        rewrite convert_await_run, Hconv. cbn [fst snd state world log outcome].
        exists [mkObs s1 (ExtractCall f (mkPromise (Fulfilled text) time));
                mkObs s1 (ConvertCall t (Fulfilled h))].
        eexists. split; [reflexivity|]. split; [by repeat constructor|].
        right. by eexists _, _.
      * erewrite bind_rejected
          by (rewrite convert_await_run, Hconv; reflexivity).
        rewrite convert_await_run, Hconv. cbn [fst snd state world log outcome].
        exists [mkObs s1 (ExtractCall f (mkPromise (Fulfilled text) time));
                mkObs s1 (ConvertCall t (Rejected e))], [].
        split; [done|]. split; [by repeat constructor|]. by left.
    + erewrite bind_fulfilled by reflexivity. cbn [ret state world log outcome].
      exists [mkObs s1 (ExtractCall f (mkPromise (Fulfilled text) time))].
      eexists. split; [reflexivity|]. split; [by repeat constructor|].
      right. by eexists _, _.
  - erewrite bind_rejected by reflexivity. cbn [await state world log outcome].
    exists [mkObs s1 (ExtractCall f (mkPromise (Rejected e) time))], [].
    split; [done|]. split; [by repeat constructor|]. by left.
Qed.

(** The status shown at every call of the loop names the file being
    handled and its position. *)
Lemma convertEach_progress n i files acc s w :
  Forall (λ o, ∃ j f, files !! j = Some f ∧
            conversionStatus (seen o) = convertingStatus (name f) (i + j) n ∧
            match call o with
            | ExtractCall g _ => g = f
            | ConvertCall _ _ => True
            end)
         (log (convertEach n i files acc s w)).
Proof.
  revert i acc s w. induction files as [|f rest IH]; intros i acc s w.
  - constructor.
  - destruct (convertEach_cons_log n i f rest acc s w)
      as (head & tail & -> & Hhead & Htail).
    apply Forall_app. split.
    + eapply Forall_impl; [exact Hhead|]. intros o [-> Hcall].
      exists 0, f. by rewrite Nat.add_0_r.
    + destruct Htail as [->|(acc' & w' & ->)]; [constructor|].
      eapply Forall_impl; [apply IH|]. intros o (j & g & Hj & Hst & Hcall).
      exists (S j), g. by rewrite Nat.add_succ_r.
Qed.

Lemma convertIndividually_log files s w :
  log (convertIndividually files s w) =
  log (convertEach (length files) 0 files [] s w).
Proof.
  unfold App.convertIndividually, bind.
  destruct (outcome (convertEach _ _ _ _ _ _)); cbn; by rewrite ?app_nil_r.
Qed.

(** The observations of an individual run are those of its loop. *)
Lemma handleConvert_individual_log s w :
  combineOutput s = false →
  log (handleConvert s w) =
    if decide (pdfFiles s = []) then []
    else log (convertEach (length (pdfFiles s)) 0 (pdfFiles s) []
                (started s) w).
Proof.
  intros Hmode. destruct (decide (pdfFiles s = [])) as [He|Hne].
  - by rewrite (handleConvert_empty _ _ s w He).
  - rewrite (handleConvert_nonempty _ _ s w Hne). cbn [log].
    unfold algorithm. rewrite Hmode. apply convertIndividually_log.
Qed.

(** The observations of a combined run: the fan-out under the
    extraction status, then at most the conversion under its own
    status. *)
Lemma handleConvert_combined_log s w :
  combineOutput s = true → pdfFiles s ≠ [] →
  let s1 := setConversionStatus (extractingStatus (length (pdfFiles s)))
              (started s) in
  let s2 := setConversionStatus "AI is converting combined text..." s1 in
  ∃ ps tail, length ps = length (pdfFiles s) ∧
    log (handleConvert s w) =
      zip_with (λ f p, mkObs s1 (ExtractCall f p)) (pdfFiles s) ps ++ tail ∧
    (tail = [] ∨ ∃ t q, tail = [mkObs s2 (ConvertCall t q)]).
Proof.
  intros Hmode Hne s1 s2. rewrite (handleConvert_nonempty _ _ s w Hne).
  cbn [log]. unfold algorithm. rewrite Hmode.
  destruct (convertCombined_run extractPdfText convertTextToHtml
              (pdfFiles s) (started s) w) as (ps & Hlen & Hcase).
  cbv zeta in Hcase. fold s1 s2 in Hcase. exists ps.
  destruct Hcase as [(e & _ & _ & _ & ->)
                    |[(outs & _ & _ & _ & _ & ->)
                    |[(outs & e & _ & _ & _ & _ & ->)
                    |(outs & h & _ & _ & _ & _ & ->)]]].
  - exists []. rewrite app_nil_r. by split_and!; [..|left].
  - exists []. rewrite app_nil_r. by split_and!; [..|left].
  - eexists. split_and!; [done|reflexivity|]. right. by eexists _, _.
  - eexists. split_and!; [done|reflexivity|]. right. by eexists _, _.
Qed.

(** Every observation of a run shows the flag up and a status that is
    not empty. *)
Lemma handleConvert_busy s w :
  Forall (λ o, isConverting (seen o) = true ∧
               conversionStatus (seen o) ≠ EmptyString)
         (log (handleConvert s w)).
Proof.
  destruct (decide (pdfFiles s = [])) as [He|Hne].
  { rewrite (handleConvert_empty _ _ s w He). constructor. }
  destruct (combineOutput s) eqn:Hmode.
  - destruct (handleConvert_combined_log s w Hmode Hne)
      as (ps & tail & _ & -> & Htail).
    apply Forall_app. split.
    + eapply Forall_impl; [apply fan_seen|]. by intros o ->.
    + destruct Htail as [->|(t & q & ->)]; by repeat constructor.
  - rewrite (handleConvert_individual_log s w Hmode).
    destruct (decide (pdfFiles s = [])); [done|].
    pose proof (convertEach_progress (length (pdfFiles s)) 0 (pdfFiles s) []
                  (started s) w) as Hprog.
    pose proof (convertEach_run extractPdfText convertTextToHtml
                  (length (pdfFiles s)) 0 (pdfFiles s) [] (started s) w)
      as (Hframe & _).
    rewrite Forall_forall in Hprog, Hframe. apply Forall_forall.
    intros o Ho. split.
    + by rewrite (Hframe o Ho).
    + destruct (Hprog o Ho) as (j & f & _ & -> & _).
      apply convertingStatus_nonempty.
Qed.

(** A failed step of the loop is the only rejected call of an
    individual run, so it is the failure the run catches. *)
Lemma caught_after_steps steps tail e :
  (∃ f time, tail = [ExtractCall f (mkPromise (Rejected e) time)]) ∨
  (∃ f t time, tail = [ExtractCall f (mkPromise (Fulfilled (Some t)) time);
                       ConvertCall t (Rejected e)]) →
  caught ((steps ≫= stepCalls) ++ tail) e ∧
  firstRejection ((steps ≫= stepCalls) ++ tail) ≠ None.
Proof.
  pose proof (steps_no_rejection steps) as Hno.
  intros [(f & time & ->)|(f & t & time & ->)]; split.
  - right. exists f, (mkPromise (Rejected e) time).
    split_and!; [apply elem_of_app; right; left|done|].
    intros g q e' [Hin|Hin]%elem_of_app Hq.
    + rewrite Forall_forall in Hno. specialize (Hno _ Hin).
      cbn in Hno. by rewrite Hq in Hno.
    + by apply list_elem_of_singleton in Hin as [= _ <-].
  - by rewrite firstRejection_app, (proj1 (firstRejection_None _) Hno).
  - left. exists t. apply elem_of_app. right. right. left.
  - by rewrite firstRejection_app, (proj1 (firstRejection_None _) Hno).
Qed.

(** A run over a non-empty pending set, by its outcome: no call
    rejected and the handler completes; or a call rejected, the run
    caught that failure and left no result. *)
Lemma handleConvert_cases s w :
  pdfFiles s ≠ [] →
  let r := handleConvert s w in
  (firstRejection (calls r) = None ∧ outcome r = Fulfilled tt) ∨
  (∃ e, firstRejection (calls r) ≠ None ∧ caught (calls r) e ∧
        results (state r) = [] ∧
        outcome r = completion (Rejected e) ∧
        error (state r) = match e with
                          | Nullish => EmptyString
                          | Value v => messageOr v unknownError
                          end).
Proof.
  intros Hne r. destruct (combineOutput s) eqn:Hmode.
  - destruct (handleConvert_combined extractPdfText convertTextToHtml
                s w Hmode Hne) as (ps & Hlen & Hcase).
    cbv zeta in Hcase. fold r in Hcase.
    destruct Hcase as [(e & Hall & -> & Hres & Herr & Hout)
                      |[(outs & Hall & _ & -> & _ & _ & Hout)
                      |[(outs & e & Hall & _ & -> & Hres & Herr & Hout)
                      |(outs & h & Hall & _ & -> & _ & _ & Hout)]]].
    + right. exists e.
      destruct (fan_rejection (pdfFiles s) ps e Hlen Hall) as [Hrej Hcaught].
      by split_and!.
    + left. split; [|done]. apply firstRejection_None, fan_no_rejection.
      unfold promiseAll in Hall.
      destruct (earliestRejection ps) as [[? ?]|] eqn:Hnone; [done|].
      by apply earliestRejection_None.
    + assert (Hfan : firstRejection (zip_with ExtractCall (pdfFiles s) ps)
                     = None).
      { apply firstRejection_None, fan_no_rejection.
        unfold promiseAll in Hall.
        destruct (earliestRejection ps) as [[? ?]|] eqn:Hnone; [done|].
        by apply earliestRejection_None. }
      right. exists e. split_and!; try done.
      * by rewrite firstRejection_app, Hfan.
      * left. eexists. apply elem_of_app. right. left.
    + left. split; [|done].
      rewrite firstRejection_app.
      assert (Hfan : firstRejection (zip_with ExtractCall (pdfFiles s) ps)
                     = None); [|by rewrite Hfan].
      apply firstRejection_None, fan_no_rejection.
      unfold promiseAll in Hall.
      destruct (earliestRejection ps) as [[? ?]|] eqn:Hnone; [done|].
      by apply earliestRejection_None.
  - destruct (handleConvert_individual extractPdfText convertTextToHtml
                s w Hmode Hne)
      as (_ & steps & _ & [(_ & Hcalls & _ & _ & Hout)
                          |(f & post & e & _ & Hres & Herr & Hout & Hcalls)]);
      fold r in Hcalls, Hout.
    + left. split; [|done]. rewrite Hcalls.
      apply firstRejection_None, steps_no_rejection.
    + right. exists e. fold r in Hres, Herr.
      assert (Hc : caught (calls r) e ∧ firstRejection (calls r) ≠ None).
      { destruct Hcalls as [(time & ->)|(t & time & _ & ->)];
          apply caught_after_steps;
          [left; by eexists _, _|right; by eexists _, _, _]. }
      destruct Hc. by split_and!.
Qed.

(** X9. A run throws only when a call rejects with null or undefined:
    if no call does, the handler completes normally whatever else the
    collaborators do; if the handler throws, the failure it caught is
    null or undefined, and the flag is down, the results and the error
    empty.  In every case the pending set and the mode are left as they
    were, and are unchanged at every call. *)
Theorem run_settles s w :
  let r := handleConvert s w in
  (Forall (λ c, rejection c ≠ Some Nullish) (calls r) →
   outcome r = Fulfilled tt) ∧
  (outcome r ≠ Fulfilled tt →
   caught (calls r) Nullish ∧ isConverting (state r) = false ∧
   results (state r) = [] ∧ error (state r) = EmptyString) ∧
  pdfFiles (state r) = pdfFiles s ∧
  combineOutput (state r) = combineOutput s ∧
  Forall (λ o, pdfFiles (seen o) = pdfFiles s ∧
               combineOutput (seen o) = combineOutput s) (log r).
Proof.
  intros r. destruct (decide (pdfFiles s = [])) as [He|Hne].
  { subst r. rewrite (handleConvert_empty _ _ s w He). by split_and!. }
  assert (Hthrow : outcome r ≠ Fulfilled tt →
            caught (calls r) Nullish ∧ isConverting (state r) = false ∧
            results (state r) = [] ∧ error (state r) = EmptyString).
  { intros Hout.
    destruct (handleConvert_cases s w Hne)
      as [[_ Hok]|(e & _ & Hcaught & Hres & Hcompl & Herr)]; [done|].
    fold r in Hcaught, Hres, Hcompl, Herr.
    destruct e as [|v]; [|done].
    split_and!; try done.
    subst r. rewrite (handleConvert_nonempty _ _ s w Hne). done. }
  split_and!; [|exact Hthrow|..].
  - intros Hno.
    assert (Hdec : outcome r = Fulfilled tt ∨ outcome r ≠ Fulfilled tt)
      by (destruct (outcome r) as [[]|e]; [by left|by right]).
    destruct Hdec as [|Hout]; [done|].
    destruct (Hthrow Hout) as ([(t & Hin)|(f & p & Hin & Hset & _)] & _);
      rewrite Forall_forall in Hno; specialize (Hno _ Hin); cbn in Hno;
      [done|by rewrite Hset in Hno].
  - subst r. rewrite (handleConvert_nonempty _ _ s w Hne). cbn [state].
    destruct (algorithm_frame extractPdfText convertTextToHtml s (started s) w)
      as (_ & s1 & Hs1 & Hout).
    destruct (outcome (tryBody s (started s) w)) as [[]|[|v]].
    + destruct Hout as (rs & ->). by rewrite Hs1.
    + rewrite Hout. by rewrite Hs1.
    + rewrite Hout. by rewrite Hs1.
  - subst r. rewrite (handleConvert_nonempty _ _ s w Hne). cbn [state].
    destruct (algorithm_frame extractPdfText convertTextToHtml s (started s) w)
      as (_ & s1 & Hs1 & Hout).
    destruct (outcome (tryBody s (started s) w)) as [[]|[|v]].
    + destruct Hout as (rs & ->). by rewrite Hs1.
    + rewrite Hout. by rewrite Hs1.
    + rewrite Hout. by rewrite Hs1.
  - subst r. rewrite (handleConvert_nonempty _ _ s w Hne). cbn [log].
    destruct (algorithm_frame extractPdfText convertTextToHtml s (started s) w)
      as (Hlog & _).
    eapply Forall_impl; [exact Hlog|]. by intros o ->.
Qed.
(** X10. A run over a non-empty pending set depends on the pending set
    and the mode only: the results, the error, the flag and the status
    that were there before have no influence on its calls, on what the
    calls observe, or on the state it leaves. *)
Theorem run_forgets_previous_output s s' w :
  sameInputs s s' → pdfFiles s ≠ [] →
  handleConvert s' w = handleConvert s w.
Proof.
  intros [Hfiles Hmode] Hne.
  assert (Hne' : pdfFiles s' ≠ []) by by rewrite Hfiles.
  assert (Hst : ∀ c, setConversionStatus c (started s') =
                     setConversionStatus c (started s)).
  { intros c. apply state_eq; done. }
  rewrite (handleConvert_nonempty _ _ s w Hne),
          (handleConvert_nonempty _ _ s' w Hne').
  assert (Hbody : tryBody s' (started s') w = tryBody s (started s) w);
    [|by rewrite Hbody].
  unfold algorithm. rewrite Hfiles, Hmode. destruct (combineOutput s).
  - unfold App.convertCombined. by rewrite !bind_update, Hst.
  - destruct (pdfFiles s) as [|f rest]; [done|].
    unfold App.convertIndividually, bind.
    assert (Hloop : ∀ n, convertEach n 0 (f :: rest) [] (started s') w =
                         convertEach n 0 (f :: rest) [] (started s) w).
    { intros n. cbn [App.convertEach]. by rewrite !bind_update, Hst. }
    by rewrite Hloop.
Qed.

(** X11. In either mode, when a call of a run rejects, the run
    catches one failure: the rejection of the transformation, or the
    rejection of the extraction that settled first among the rejected
    ones.  The result set is then empty.  When that failure is a value,
    the error is its message, or the generic message when it has no
    message or an empty one, and it is not empty; when it is null or
    undefined, the error stays empty. *)
Theorem first_rejection_reported s w :
  let r := handleConvert s w in
  firstRejection (calls r) ≠ None →
  ∃ e, caught (calls r) e ∧
    results (state r) = [] ∧
    match e with
    | Nullish => error (state r) = EmptyString
    | Value v =>
        (∀ m, message v = Some m → m ≠ EmptyString → error (state r) = m) ∧
        (message v = None ∨ message v = Some EmptyString →
         error (state r) = "An unknown error occurred during conversion.") ∧
        error (state r) ≠ EmptyString
    end.
Proof.
  intros r Hrej. destruct (decide (pdfFiles s = [])) as [He|Hne].
  { subst r. by rewrite (handleConvert_empty _ _ s w He) in Hrej. }
  destruct (handleConvert_cases s w Hne)
    as [[Hnone _]|(e & _ & Hcaught & Hres & _ & Herr)]; [done|].
  fold r in Hcaught, Hres, Herr.
  exists e. split_and!; [done|done|]. destruct e as [|v]; [done|].
  rewrite Herr. unfold messageOr. split_and!.
  - intros m -> Hm. by destruct (decide (m = EmptyString)).
  - by intros [->| ->].
  - destruct (message v) as [m|]; [|done].
    by destruct (decide (m = EmptyString)).
Qed.
(** X12. An individual run never hands an empty text to the
    transformation. *)
Theorem individual_never_converts_empty s w :
  combineOutput s = false →
  Forall (λ t, t ≠ EmptyString) (convertedTexts (calls (handleConvert s w))).
Proof.
  intros Hmode. destruct (decide (pdfFiles s = [])) as [He|Hne].
  { rewrite (handleConvert_empty _ _ s w He). constructor. }
  destruct (handleConvert_individual extractPdfText convertTextToHtml s w Hmode Hne)
    as (_ & steps & Hval & [(_ & -> & _)
                           |(f & post & e & _ & _ & _ & _ & Hcalls)]).
  - by apply convertedTexts_steps.
  - unfold convertedTexts in *.
    destruct Hcalls as [(time & ->)|(t & time & Ht & ->)]; rewrite omap_app;
      apply Forall_app; (split; [by apply convertedTexts_steps|]); cbn.
    + constructor.
    + by repeat constructor.
Qed.

(** X13. After an individual run over a non-empty pending set, the
    labels of the results are names of pending files, in the order of
    the pending set, each file giving at most one result. *)
Theorem individual_labels s w :
  combineOutput s = false → pdfFiles s ≠ [] →
  fileName <$> results (state (handleConvert s w))
    `sublist_of` name <$> pdfFiles s.
Proof.
  intros Hmode Hne.
  destruct (handleConvert_individual extractPdfText convertTextToHtml s w Hmode Hne)
    as (_ & steps & _ & [(Hfiles & _ & -> & _)
                        |(f & post & e & _ & -> & _)]).
  - rewrite <-Hfiles. apply labels_steps.
  - apply sublist_nil_l.
Qed.

(** X14. At every call of an individual run the status names the file
    being handled and its position, counted from one, out of the number
    of pending files; at an extraction, that file is the file
    extracted. *)
Theorem individual_progress s w :
  combineOutput s = false →
  Forall (progressOf (pdfFiles s)) (log (handleConvert s w)).
Proof.
  intros Hmode. rewrite (handleConvert_individual_log s w Hmode).
  destruct (decide (pdfFiles s = [])); [constructor|].
  exact (convertEach_progress (length (pdfFiles s)) 0 (pdfFiles s) []
           (started s) w).
Qed.

(** X15. At every extraction of a combined run the status is the
    extraction message with the number of pending files, and at the
    transformation it is the conversion message. *)
Theorem combined_progress s w :
  combineOutput s = true →
  Forall (λ o, conversionStatus (seen o) =
               match call o with
               | ExtractCall _ _ =>
                   "Extracting text from " +:+ pretty (length (pdfFiles s))
                   +:+ " files..."
               | ConvertCall _ _ => "AI is converting combined text..."
               end)
         (log (handleConvert s w)).
Proof.
  intros Hmode. destruct (decide (pdfFiles s = [])) as [He|Hne].
  { rewrite (handleConvert_empty _ _ s w He). constructor. }
  destruct (handleConvert_combined_log s w Hmode Hne)
    as (ps & tail & _ & -> & Htail).
  apply Forall_app. split.
  - clear. generalize (length (pdfFiles s)) as n. intros n.
    generalize (pdfFiles s) as files. intros files. revert ps.
    induction files as [|f files IH]; intros [|p ps]; try constructor;
      [done|apply IH].
  - destruct Htail as [->|(t & q & ->)]; by repeat constructor.
Qed.

(** X16. A combined run over a non-empty pending set issues the
    extraction of every pending file, once and in submission order,
    even when one of them rejects, and calls the transformation at most
    once. *)
Theorem combined_extracts_every_file s w :
  combineOutput s = true → pdfFiles s ≠ [] →
  extractedFiles (calls (handleConvert s w)) = pdfFiles s ∧
  (length (convertedTexts (calls (handleConvert s w))) ≤ 1)%nat.
Proof.
  intros Hmode Hne. unfold calls.
  destruct (handleConvert_combined_log s w Hmode Hne)
    as (ps & tail & Hlen & -> & Htail).
  rewrite fmap_app, fan_calls. unfold extractedFiles, convertedTexts.
  rewrite !omap_app.
  fold (extractedFiles (zip_with ExtractCall (pdfFiles s) ps)).
  fold (convertedTexts (zip_with ExtractCall (pdfFiles s) ps)).
  rewrite (extractedFiles_fan _ _ Hlen), convertedTexts_fan.
  destruct Htail as [->|(t & q & ->)]; cbn; rewrite ?app_nil_r; split;
    (done || lia).
Qed.

(** X17. An individual run extracts the pending files in submission
    order from the first one on, each at most once, up to the file at
    which a call rejects, and it never converts more texts than it
    extracted files. *)
Theorem individual_extracts_prefix s w :
  combineOutput s = false →
  extractedFiles (calls (handleConvert s w)) `prefix_of` pdfFiles s ∧
  (length (convertedTexts (calls (handleConvert s w))) ≤
   length (extractedFiles (calls (handleConvert s w))))%nat.
Proof.
  intros Hmode. destruct (decide (pdfFiles s = [])) as [He|Hne].
  { rewrite (handleConvert_empty _ _ s w He). cbn.
    split; [apply prefix_nil|done]. }
  destruct (handleConvert_individual extractPdfText convertTextToHtml s w Hmode Hne)
    as (_ & steps & Hval & [(Hfiles & -> & _)
                           |(f & post & e & -> & _ & _ & _ & Hcalls)]).
  - rewrite extractedFiles_steps, Hfiles, <-Hfiles, length_fmap.
    split; [done|by apply convertedTexts_steps].
  - pose proof (proj2 (convertedTexts_steps steps Hval)) as Hlen.
    destruct Hcalls as [(time & ->)|(t & time & _ & ->)];
      unfold extractedFiles, convertedTexts in *; rewrite !omap_app;
      fold (extractedFiles (steps ≫= stepCalls));
      rewrite extractedFiles_steps; cbn; rewrite !length_app, length_fmap;
      cbn; (split; [|lia]).
    + exists post. by rewrite <-app_assoc.
    + exists post. by rewrite <-app_assoc.
Qed.

(** X18. A run over a non-empty pending set starts with the extraction
    of the first pending file. *)
Theorem run_starts_with_first_file s w f rest :
  pdfFiles s = f :: rest →
  ∃ p, head (calls (handleConvert s w)) = Some (ExtractCall f p).
Proof.
  intros Hfiles.
  assert (Hne : pdfFiles s ≠ []) by by rewrite Hfiles.
  destruct (combineOutput s) eqn:Hmode.
  - unfold calls.
    destruct (handleConvert_combined_log s w Hmode Hne)
      as (ps & tail & Hlen & -> & _).
    rewrite Hfiles in *. destruct ps as [|p ps]; [done|]. by exists p.
  - destruct (handleConvert_individual extractPdfText convertTextToHtml s w Hmode Hne)
      as (_ & steps & _ & [(Hsteps & -> & _)
                          |(g & post & e & Hsteps & _ & _ & _ & Hcalls)]).
    + rewrite Hfiles in Hsteps.
      destruct steps as [|[g text time|g t h time] steps]; [done|..];
        injection Hsteps as -> _; by eexists.
    + rewrite Hfiles in Hsteps.
      destruct steps as [|[g' text time'|g' t h time'] steps].
      * injection Hsteps as -> _.
        destruct Hcalls as [(time & ->)|(t & time & _ & ->)]; by eexists.
      * injection Hsteps as -> _.
        destruct Hcalls as [(time & ->)|(t & time & _ & ->)]; by eexists.
      * injection Hsteps as -> _.
        destruct Hcalls as [(time & ->)|(t' & time & _ & ->)]; by eexists.
Qed.

(** X19. At every call of a run, whatever the extractor reports about
    itself, the component is loading: the convert button is disabled,
    its text is the status of the run, and the result panel is
    hidden. *)
Theorem busy_during_run s w :
  Forall (λ o, ∀ isExtracting,
            isLoading isExtracting (seen o) = true ∧
            convertDisabled isExtracting (seen o) = true ∧
            convertLabel isExtracting (seen o) = conversionStatus (seen o) ∧
            showsResults isExtracting (seen o) = false)
         (log (handleConvert s w)).
Proof.
  eapply Forall_impl; [apply handleConvert_busy|].
  intros o [Hflag Hst] ex.
  unfold convertDisabled, convertLabel, showsResults, isLoading.
  rewrite Hflag. cbn. split_and!; try done.
  - by destruct (decide (conversionStatus (seen o) = EmptyString)).
  - apply andb_false_r.
Qed.

(** X20. After a run over a non-empty pending set, once the extractor is
    idle, the file list is shown, the convert button is enabled and
    gives the number of pending files, and the result panel and the
    error banner are not both shown. *)
Theorem ready_after_run s w :
  pdfFiles s ≠ [] →
  let st := state (handleConvert s w) in
  isLoading false st = false ∧
  showsFileList st = true ∧
  convertDisabled false st = false ∧
  convertLabel false st =
    "Convert " +:+ pretty (length (pdfFiles s)) +:+ " File(s)" ∧
  showsResults false st && showsError st = false.
Proof.
  intros Hne st. subst st.
  rewrite (handleConvert_nonempty _ _ s w Hne). cbn [state].
  destruct (algorithm_frame extractPdfText convertTextToHtml s (started s) w)
    as (_ & s1 & Hs1 & Hout).
  assert (Hlen : length (pdfFiles s) ≠ 0) by (by destruct (pdfFiles s)).
  unfold isLoading, showsFileList, convertDisabled, convertLabel,
    showsResults, showsError, isLoading.
  destruct (outcome (tryBody s (started s) w)) as [[]|[|v]].
  - destruct Hout as (rs & ->). rewrite Hs1. cbn.
    split_and!; try done.
    + apply bool_decide_eq_true. lia.
    + by apply bool_decide_eq_false.
    + rewrite andb_true_r. apply andb_false_r.
  - rewrite Hout, Hs1. cbn.
    split_and!; try done.
    + apply bool_decide_eq_true. lia.
    + by apply bool_decide_eq_false.
  - rewrite Hout, Hs1. cbn.
    split_and!; try done.
    + apply bool_decide_eq_true. lia.
    + by apply bool_decide_eq_false.
Qed.

Lemma fan_no_conversion files (ps : list (Promise (option string))) t q :
  ConvertCall t q ∉ zip_with ExtractCall files ps.
Proof.
  revert ps. induction files as [|f files IH]; intros [|p ps]; cbn;
    try apply not_elem_of_nil.
  intros [[=]|Hin]%elem_of_cons. by apply (IH ps).
Qed.

(** X21. A combined run over a non-empty pending set leaves either no
    result, and then no transformation call succeeded, or exactly one
    result, labelled as the combined output, whose content is the
    output of the transformation call that ended the run, and then no
    error. *)
Theorem combined_all_or_nothing s w :
  combineOutput s = true → pdfFiles s ≠ [] →
  let r := handleConvert s w in
  (results (state r) = [] ∧
   ∀ t h, ConvertCall t (Fulfilled h) ∉ calls r) ∨
  (∃ t h, results (state r) = [mkResult "Combined Output" h] ∧
          last (calls r) = Some (ConvertCall t (Fulfilled h)) ∧
          error (state r) = EmptyString).
Proof.
  intros Hmode Hne r.
  destruct (handleConvert_combined extractPdfText convertTextToHtml
              s w Hmode Hne) as (ps & Hlen & Hcase).
  cbv zeta in Hcase. fold r in Hcase.
  destruct Hcase as [(e & _ & -> & Hres & _)
                    |[(outs & _ & _ & -> & Hres & _)
                    |[(outs & e & _ & _ & -> & Hres & _)
                    |(outs & h & _ & _ & -> & Hres & Herr & _)]]].
  - left. split; [done|]. intros t h. apply fan_no_conversion.
  - left. split; [done|]. intros t h. apply fan_no_conversion.
  - left. split; [done|]. intros t h [Hin|Hin]%elem_of_app.
    + by apply fan_no_conversion in Hin.
    + by apply list_elem_of_singleton in Hin.
  - right. eexists _, h. split_and!; [done| |done]. by rewrite last_snoc.
Qed.

(** X22. In individual mode, when the conversion of the text [t] of a
    file rejects with [e], the run stops there: that call is the last
    of the run and follows the extraction of that file, no file after
    that one is extracted or converted, and the result set is empty,
    whatever the files before had produced.  When [e] is a value, the
    error is its message, or the generic message when it has no message
    or an empty one; when [e] is null or undefined, the error stays
    empty. *)
Theorem individual_conversion_failure s w t e :
  combineOutput s = false →
  let r := handleConvert s w in
  ConvertCall t (Rejected e) ∈ calls r →
  results (state r) = [] ∧
  match e with
  | Nullish => error (state r) = EmptyString
  | Value v =>
      (∀ m, message v = Some m → m ≠ EmptyString → error (state r) = m) ∧
      (message v = None ∨ message v = Some EmptyString →
       error (state r) = "An unknown error occurred during conversion.")
  end ∧
  ∃ steps f post time,
    Forall stepValid steps ∧
    pdfFiles s = (stepFile <$> steps) ++ f :: post ∧
    calls r = (steps ≫= stepCalls) ++
              [ExtractCall f (mkPromise (Fulfilled (Some t)) time);
               ConvertCall t (Rejected e)].
Proof.
  intros Hmode r Hin.
  destruct (decide (pdfFiles s = [])) as [He|Hne].
  { exfalso. subst r. rewrite (handleConvert_empty _ _ s w He) in Hin.
    by apply elem_of_nil in Hin. }
  assert (Hno : ∀ steps, ConvertCall t (Rejected e) ∉ steps ≫= stepCalls).
  { intros steps Hs. pose proof (steps_no_rejection steps) as Hall.
    rewrite Forall_forall in Hall. by specialize (Hall _ Hs). }
  destruct (handleConvert_individual extractPdfText convertTextToHtml
              s w Hmode Hne)
    as (_ & steps & Hval & [(_ & Hcalls & _)
                           |(f & post & e' & Hfiles & Hres & Herr & _ & Hcalls)]);
    fold r in Hcalls.
  - exfalso. rewrite Hcalls in Hin. by apply (Hno steps).
  - fold r in Hres, Herr.
    destruct Hcalls as [(time & Hcalls)|(t' & time & Ht' & Hcalls)];
      rewrite Hcalls in Hin;
      apply elem_of_app in Hin as [Hin|Hin];
      try (exfalso; by apply (Hno steps)).
    + exfalso. apply list_elem_of_singleton in Hin. done.
    + apply elem_of_cons in Hin as [[=]|Hin].
      apply list_elem_of_singleton in Hin as [= <- <-].
      split_and!; [done| |by exists steps, f, post, time].
      destruct e as [|v]; [done|].
      rewrite Herr. unfold messageOr. split.
      * intros m -> Hm. by destruct (decide (m = EmptyString)).
      * by intros [->| ->].
Qed.
End MoreRuns.
(** ** The further properties on sample inputs *)

Lemma handleFilesAdded_unique_witness :
  let s := pending [fileA] true in
  (uniqueNames (pdfFiles s) ∧ uniqueNames [fileA'; fileB]) ∧
  uniqueNames (pdfFiles (handleFilesAdded [fileA'; fileB] s)).
Proof.
  intros s.
  assert (H1 : uniqueNames (pdfFiles s))
    by (apply (bool_decide_unpack _); vm_compute; exact I).
  assert (H2 : uniqueNames [fileA'; fileB])
    by (apply (bool_decide_unpack _); vm_compute; exact I).
  split; [by split|].
  exact (handleFilesAdded_unique [fileA'; fileB] s H1 H2).
Defined.

Lemma handleFilesAdded_known_names_witness :
  let s := setResults [mkResult "A.pdf" "<p>TextA</p>"] (pending [fileA] true) in
  (∀ f, f ∈ [fileA'] → name f ∈ name <$> pdfFiles s) ∧
  pdfFiles (handleFilesAdded [fileA'] s) = pdfFiles s ∧
  results (handleFilesAdded [fileA'] s) = [] ∧
  error (handleFilesAdded [fileA'] s) = EmptyString.
Proof.
  intros s.
  assert (H1 : ∀ f, f ∈ [fileA'] → name f ∈ name <$> pdfFiles s).
  { intros f ->%list_elem_of_singleton.
    apply (bool_decide_unpack _). vm_compute. exact I. }
  split; [exact H1|].
  exact (handleFilesAdded_known_names [fileA'] s H1).
Defined.

Lemma add_then_remove_witness :
  let s := pending [fileA; fileScan] false in
  (name fileB ∉ name <$> pdfFiles s) ∧
  pdfFiles (handleRemoveFile (name fileB) (handleFilesAdded [fileB] s)) =
    pdfFiles s.
Proof.
  intros s.
  assert (H1 : name fileB ∉ name <$> pdfFiles s)
    by (apply (bool_decide_unpack _); vm_compute; exact I).
  split; [exact H1|].
  exact (add_then_remove fileB s H1).
Defined.

Lemma handleRemoveFile_unique_witness :
  let s := pending [fileA; fileB; fileScan] true in
  uniqueNames (pdfFiles s) ∧
  uniqueNames (pdfFiles (handleRemoveFile "B.pdf" s)) ∧
  ("B.pdf" ∈ name <$> pdfFiles s →
   S (length (pdfFiles (handleRemoveFile "B.pdf" s))) = length (pdfFiles s)).
Proof.
  intros s.
  assert (H1 : uniqueNames (pdfFiles s))
    by (apply (bool_decide_unpack _); vm_compute; exact I).
  split; [exact H1|].
  exact (handleRemoveFile_unique "B.pdf" s H1).
Defined.

(** Running again from the state a first run left gives what a run from
    the fresh state gives. *)
Lemma run_forgets_previous_output_witness :
  let s := pending [fileA; fileB] true in
  let s' := state (handleConvert sampleExtract sampleConvert s tt) in
  (sameInputs s s' ∧ pdfFiles s ≠ []) ∧
  handleConvert sampleExtract sampleConvert s' tt =
  handleConvert sampleExtract sampleConvert s tt.
Proof.
  intros s s'.
  assert (H1 : sameInputs s s') by (split; reflexivity).
  assert (H2 : pdfFiles s ≠ []) by (vm_compute; discriminate).
  split; [by split|].
  exact (run_forgets_previous_output sampleExtract sampleConvert s s' tt H1 H2).
Defined.

(** A fan-out in which two extractions reject: the one submitted
    second settles first. *)
Lemma first_rejection_reported_witness :
  let s := pending [fileBroken; fileCorrupt; fileA] true in
  let r := handleConvert sampleExtract sampleConvert s tt in
  firstRejection (calls r) ≠ None ∧
  ∃ e, caught (calls r) e ∧
    results (state r) = [] ∧
    match e with
    | Nullish => error (state r) = EmptyString
    | Value v =>
        (∀ m, message v = Some m → m ≠ EmptyString → error (state r) = m) ∧
        (message v = None ∨ message v = Some EmptyString →
         error (state r) = "An unknown error occurred during conversion.") ∧
        error (state r) ≠ EmptyString
    end.
Proof.
  intros s r.
  assert (H1 : firstRejection (calls r) ≠ None) by (vm_compute; discriminate).
  split; [exact H1|].
  exact (first_rejection_reported sampleExtract sampleConvert s tt H1).
Defined.

Lemma individual_never_converts_empty_witness :
  let s := pending [fileEmpty; fileA; fileScan] false in
  combineOutput s = false ∧
  Forall (λ t, t ≠ EmptyString)
    (convertedTexts (calls (handleConvert sampleExtract sampleConvert s tt))).
Proof.
  intros s.
  assert (H1 : combineOutput s = false) by reflexivity.
  split; [exact H1|].
  exact (individual_never_converts_empty sampleExtract sampleConvert s tt H1).
Defined.

Lemma individual_labels_witness :
  let s := pending [fileA; fileEmpty; fileB] false in
  (combineOutput s = false ∧ pdfFiles s ≠ []) ∧
  fileName <$> results (state (handleConvert sampleExtract sampleConvert s tt))
    `sublist_of` name <$> pdfFiles s.
Proof.
  intros s.
  assert (H1 : combineOutput s = false) by reflexivity.
  assert (H2 : pdfFiles s ≠ []) by (vm_compute; discriminate).
  split; [by split|].
  exact (individual_labels sampleExtract sampleConvert s tt H1 H2).
Defined.

Lemma individual_progress_witness :
  let s := pending [fileA; fileB] false in
  combineOutput s = false ∧
  Forall (progressOf (pdfFiles s))
    (log (handleConvert sampleExtract sampleConvert s tt)).
Proof.
  intros s.
  assert (H1 : combineOutput s = false) by reflexivity.
  split; [exact H1|].
  exact (individual_progress sampleExtract sampleConvert s tt H1).
Defined.

Lemma combined_progress_witness :
  let s := pending [fileA; fileB] true in
  combineOutput s = true ∧
  Forall (λ o, conversionStatus (seen o) =
               match call o with
               | ExtractCall _ _ =>
                   "Extracting text from " +:+ pretty (length (pdfFiles s))
                   +:+ " files..."
               | ConvertCall _ _ => "AI is converting combined text..."
               end)
    (log (handleConvert sampleExtract sampleConvert s tt)).
Proof.
  intros s.
  assert (H1 : combineOutput s = true) by reflexivity.
  split; [exact H1|].
  exact (combined_progress sampleExtract sampleConvert s tt H1).
Defined.

(** A fan-out whose first extraction rejects. *)
Lemma combined_extracts_every_file_witness :
  let s := pending [fileBroken; fileA; fileB] true in
  let r := handleConvert sampleExtract sampleConvert s tt in
  (combineOutput s = true ∧ pdfFiles s ≠ []) ∧
  extractedFiles (calls r) = pdfFiles s ∧
  (length (convertedTexts (calls r)) ≤ 1)%nat.
Proof.
  intros s r.
  assert (H1 : combineOutput s = true) by reflexivity.
  assert (H2 : pdfFiles s ≠ []) by (vm_compute; discriminate).
  split; [by split|].
  exact (combined_extracts_every_file sampleExtract sampleConvert s tt H1 H2).
Defined.

(** The same files, one after the other: the run stops at the first. *)
Lemma individual_extracts_prefix_witness :
  let s := pending [fileA; fileBroken; fileB] false in
  let r := handleConvert sampleExtract sampleConvert s tt in
  combineOutput s = false ∧
  extractedFiles (calls r) `prefix_of` pdfFiles s ∧
  (length (convertedTexts (calls r)) ≤ length (extractedFiles (calls r)))%nat.
Proof.
  intros s r.
  assert (H1 : combineOutput s = false) by reflexivity.
  split; [exact H1|].
  exact (individual_extracts_prefix sampleExtract sampleConvert s tt H1).
Defined.

Lemma run_starts_with_first_file_witness :
  let s := pending [fileScan; fileA] true in
  pdfFiles s = fileScan :: [fileA] ∧
  ∃ p, head (calls (handleConvert sampleExtract sampleConvert s tt)) =
       Some (ExtractCall fileScan p).
Proof.
  intros s.
  assert (H1 : pdfFiles s = fileScan :: [fileA]) by (vm_compute; reflexivity).
  split; [exact H1|].
  exact (run_starts_with_first_file sampleExtract sampleConvert s tt
           fileScan [fileA] H1).
Defined.

(** After a run whose transformation failed. *)
Lemma ready_after_run_witness :
  let s := pending [fileA; fileB] true in
  let st := state (handleConvert sampleExtract silentConvert s tt) in
  pdfFiles s ≠ [] ∧
  isLoading false st = false ∧
  showsFileList st = true ∧
  convertDisabled false st = false ∧
  convertLabel false st =
    "Convert " +:+ pretty (length (pdfFiles s)) +:+ " File(s)" ∧
  showsResults false st && showsError st = false.
Proof.
  intros s st.
  assert (H1 : pdfFiles s ≠ []) by (vm_compute; discriminate).
  split; [exact H1|].
  exact (ready_after_run sampleExtract silentConvert s tt H1).
Defined.

(** A combined run whose transformation fails. *)
Lemma combined_all_or_nothing_witness :
  let s := pending [fileA; fileB] true in
  let r := handleConvert sampleExtract silentConvert s tt in
  (combineOutput s = true ∧ pdfFiles s ≠ []) ∧
  ((results (state r) = [] ∧
    ∀ t h, ConvertCall t (Fulfilled h) ∉ calls r) ∨
   (∃ t h, results (state r) = [mkResult "Combined Output" h] ∧
           last (calls r) = Some (ConvertCall t (Fulfilled h)) ∧
           error (state r) = EmptyString)).
Proof.
  intros s r.
  assert (H1 : combineOutput s = true) by reflexivity.
  assert (H2 : pdfFiles s ≠ []) by (vm_compute; discriminate).
  split; [by split|].
  exact (combined_all_or_nothing sampleExtract silentConvert s tt H1 H2).
Defined.

(** Three files, individual mode; the conversion of the second fails
    after the first was converted. *)
Lemma individual_conversion_failure_witness :
  let s := pending [fileA; fileB; fileScan] false in
  let r := handleConvert sampleExtract failingConvert s tt in
  let v := mkError (Some "quota exceeded") in
  (combineOutput s = false ∧
   ConvertCall "TextB" (Rejected (Value v)) ∈ calls r) ∧
  results (state r) = [] ∧
  ((∀ m, message v = Some m → m ≠ EmptyString → error (state r) = m) ∧
   (message v = None ∨ message v = Some EmptyString →
    error (state r) = "An unknown error occurred during conversion.")) ∧
  ∃ steps f post time,
    Forall stepValid steps ∧
    pdfFiles s = (stepFile <$> steps) ++ f :: post ∧
    calls r = (steps ≫= stepCalls) ++
              [ExtractCall f (mkPromise (Fulfilled (Some "TextB")) time);
               ConvertCall "TextB" (Rejected (Value v))].
Proof.
  intros s r v.
  assert (H1 : combineOutput s = false) by reflexivity.
  assert (H2 : ConvertCall "TextB" (Rejected (Value v)) ∈ calls r)
    by (vm_compute; repeat constructor).
  split; [by split|].
  exact (individual_conversion_failure sampleExtract failingConvert s tt
           "TextB" (Value v) H1 H2).
Defined.
